(** * teacher-bot: the language detector and the /ask handler of server.js

    A shallow embedding of [detectLangFromText] and of the handler of
    [POST /ask], over JavaScript strings represented as sequences of UTF-16
    code units, with the regular expressions of the detector interpreted by a
    small backtracking matcher. *)

From Stdlib Require Import NArith ZArith List String Ascii Bool Lia.
From Stdlib Require Import Floats.SpecFloat.
From Stdlib Require Import FunInd Recdef.
Import ListNotations.
Open Scope N_scope.

Set Warnings "-register-all".

(** ** JavaScript strings *)

(** A JavaScript string is a sequence of 16-bit code units. *)
Definition code_unit := N.
Definition jsstring := list code_unit.

(** String literals of the source file are UTF-8 text; [js] decodes such a
    literal into its code units (every literal of server.js lies in the
    Basic Multilingual Plane, so one to three bytes per unit). *)
Fixpoint utf8_decode (bs : list N) : jsstring :=
  match bs with
  | [] => []
  | b0 :: r0 =>
      if b0 <? 0x80 then b0 :: utf8_decode r0
      else if b0 <? 0xE0 then
        match r0 with
        | b1 :: r1 => ((b0 - 0xC0) * 64 + (b1 - 0x80)) :: utf8_decode r1
        | [] => []
        end
      else
        match r0 with
        | b1 :: b2 :: r2 =>
            ((b0 - 0xE0) * 4096 + (b1 - 0x80) * 64 + (b2 - 0x80)) :: utf8_decode r2
        | _ => []
        end
  end.

Definition js (s : string) : jsstring :=
  utf8_decode (map N_of_ascii (list_ascii_of_string s)).

(** WhiteSpace and LineTerminator code units, the ones [String.prototype.trim]
    strips. *)
Definition isWhiteSpace (c : code_unit) : bool :=
  ((9 <=? c) && (c <=? 13)) || (c =? 0x20) || (c =? 0xA0) || (c =? 0x1680)
  || ((0x2000 <=? c) && (c <=? 0x200A)) || (c =? 0x2028) || (c =? 0x2029)
  || (c =? 0x202F) || (c =? 0x205F) || (c =? 0x3000) || (c =? 0xFEFF).

Fixpoint trimStart (s : jsstring) : jsstring :=
  match s with
  | [] => []
  | c :: r => if isWhiteSpace c then trimStart r else s
  end.

Definition trimEnd (s : jsstring) : jsstring := rev (trimStart (rev s)).

Definition trim (s : jsstring) : jsstring := trimEnd (trimStart s).

(** Lower-casing and case folding inside Latin-1 (code units below 256). *)
Definition latin1_lower (c : code_unit) : code_unit :=
  if ((0x41 <=? c) && (c <=? 0x5A))
     || ((0xC0 <=? c) && (c <=? 0xDE) && negb (c =? 0xD7))
  then c + 32 else c.

(** [Canonicalize] of a regular expression with the [i] flag and without the
    [u] flag: the upper-case form when it is a single code unit, except that a
    non-ASCII unit never folds onto an ASCII one.  The sharp s has a two-unit
    upper-case form and stays itself. *)
Definition latin1_canonicalize (c : code_unit) : code_unit :=
  if ((0x61 <=? c) && (c <=? 0x7A))
     || ((0xE0 <=? c) && (c <=? 0xFE) && negb (c =? 0xF7))
  then c - 32
  else if c =? 0xB5 then 0x39C
  else if c =? 0xFF then 0x178
  else c.

(** [\w] of a regular expression without the [u] flag. *)
Definition isWordChar (c : code_unit) : bool :=
  ((0x30 <=? c) && (c <=? 0x39)) || ((0x41 <=? c) && (c <=? 0x5A))
  || (c =? 0x5F) || ((0x61 <=? c) && (c <=? 0x7A)).

(** Whether a stretch of input starts with a word character; at either end
    of the input there is none. *)
Definition head_is_word (s : jsstring) : bool :=
  match s with
  | [] => false
  | c :: _ => isWordChar c
  end.

(** [String.prototype.includes]. *)
Fixpoint startsWith (needle hay : jsstring) : bool :=
  match needle, hay with
  | [], _ => true
  | _ :: _, [] => false
  | a :: needle', b :: hay' => (a =? b) && startsWith needle' hay'
  end.

Fixpoint includes (needle hay : jsstring) : bool :=
  startsWith needle hay ||
  match hay with
  | [] => false
  | _ :: hay' => includes needle hay'
  end.

(** ** Regular expressions *)

(** The fragment of the regular-expression language that server.js uses:
    literal characters, character classes, alternation, sequencing and the
    word-boundary assertion. *)
Inductive regex : Type :=
| REmpty
| RChar (c : code_unit)
| RClass (cs : list code_unit)
| RWordB
| RSeq (r1 r2 : regex)
| RAlt (r1 r2 : regex).

Fixpoint lit (s : jsstring) : regex :=
  match s with
  | [] => REmpty
  | c :: s' => RSeq (RChar c) (lit s')
  end.

(** [(k|k1|...|kn)] *)
Fixpoint alts (k : jsstring) (ks : list jsstring) : regex :=
  match ks with
  | [] => lit k
  | k' :: ks' => RAlt (lit k) (alts k' ks')
  end.

(** [\b(k|k1|...|kn)\b] *)
Definition words (k : jsstring) (ks : list jsstring) : regex :=
  RSeq RWordB (RSeq (alts k ks) RWordB).

Inductive lang : Type := Portuguese | Spanish | Italian | French | English.

Definition lang_name (l : lang) : jsstring :=
  match l with
  | Portuguese => js "Portuguese"
  | Spanish => js "Spanish"
  | Italian => js "Italian"
  | French => js "French"
  | English => js "English"
  end.

(** The eight regular expressions of [detectLangFromText], in source order. *)
Definition pt_chars : regex := RClass (js "ãõáéíóúâêôàç").
Definition pt_words : regex :=
  words (js "artigos") [js "quando"; js "como"; js "porque"; js "por que"].
Definition es_chars : regex := RClass (js "ñáéíóú¡¿").
Definition es_words : regex :=
  words (js "artículos") [js "cuándo"; js "cómo"; js "por qué"].
Definition it_chars : regex := RClass (js "àèéìòóùçîïë").
Definition it_words : regex :=
  words (js "perché") [js "quando"; js "come"; js "articoli"].
Definition fr_chars : regex := RClass (js "àâçéèêîïôûù").
Definition fr_words : regex :=
  words (js "pourquoi") [js "quand"; js "comment"; js "articles"].

Section Runtime.

(** The case tables of the JavaScript runtime beyond Latin-1 are not part of
    the repository.  [lower_ext before c after] is the lower-case form that
    [toLowerCase] gives the unit [c >= 256] standing between [before] (nearest
    unit first) and [after]; [canon_ext c] is [Canonicalize] of such a unit. *)
Variable lower_ext : jsstring -> code_unit -> jsstring -> jsstring.
Variable canon_ext : code_unit -> code_unit.

Fixpoint lower_from (before s : jsstring) : jsstring :=
  match s with
  | [] => []
  | c :: r =>
      (if c <? 256 then [latin1_lower c] else lower_ext before c r)
        ++ lower_from (c :: before) r
  end.

Definition toLowerCase (s : jsstring) : jsstring := lower_from [] s.

Definition canonicalize (c : code_unit) : code_unit :=
  if c <? 256 then latin1_canonicalize c else canon_ext c.

(** A pattern character [c] against an input unit [x], under flag [i]. *)
Definition char_match (ignoreCase : bool) (x c : code_unit) : bool :=
  if ignoreCase then canonicalize x =? canonicalize c else x =? c.

(** The backtracking matcher: [prev] is the input already passed (nearest
    unit first), [rest] the input ahead, [k] the continuation. *)
Fixpoint rmatch (i : bool) (r : regex) (prev rest : jsstring)
    (k : jsstring -> jsstring -> bool) : bool :=
  match r with
  | REmpty => k prev rest
  | RChar c =>
      match rest with
      | [] => false
      | x :: rest' => char_match i x c && k (x :: prev) rest'
      end
  | RClass cs =>
      match rest with
      | [] => false
      | x :: rest' => existsb (char_match i x) cs && k (x :: prev) rest'
      end
  | RWordB => xorb (head_is_word prev) (head_is_word rest) && k prev rest
  | RSeq r1 r2 => rmatch i r1 prev rest (fun p s => rmatch i r2 p s k)
  | RAlt r1 r2 => rmatch i r1 prev rest k || rmatch i r2 prev rest k
  end.

(** [RegExp.prototype.test] for a regular expression without the [g] and [y]
    flags: a match is tried at every start position, left to right. *)
Fixpoint search (i : bool) (r : regex) (prev rest : jsstring) : bool :=
  rmatch i r prev rest (fun _ _ => true) ||
  match rest with
  | [] => false
  | x :: rest' => search i r (x :: prev) rest'
  end.

Definition test (i : bool) (r : regex) (s : jsstring) : bool := search i r [] s.

(** ** detectLangFromText (server.js, lines 30-40) *)
Definition detectLangFromText (text : jsstring) : lang :=
  let t := trim text in
  let low := toLowerCase t in
  if test true pt_chars t || test true pt_words low then Portuguese
  else if test true es_chars t || test true es_words low then Spanish
  else if test true it_chars t || test true it_words low then Italian
  else if test true fr_chars t || test true fr_words low then French
  else English.

End Runtime.


(** ** JavaScript values *)

(** The values that reach the handler: request bodies and upstream responses
    are parsed JSON, thrown values are objects or primitives.  Numbers are
    IEEE 754 doubles. *)
Inductive value : Type :=
| VUndefined
| VNull
| VBool (b : bool)
| VNumber (x : spec_float)
| VString (s : jsstring)
| VObject (fields : list (jsstring * value))
| VArray (items : list value).

(** The result of evaluating an expression: a value, or a thrown value. *)
Inductive completion (A : Type) : Type :=
| Normal (a : A)
| Throw (e : value).
Arguments Normal {A} a.
Arguments Throw {A} e.

Fixpoint str_eqb (a b : jsstring) : bool :=
  match a, b with
  | [], [] => true
  | x :: a', y :: b' => (x =? y) && str_eqb a' b'
  | _, _ => false
  end.

Fixpoint lookup (k : jsstring) (fields : list (jsstring * value)) : value :=
  match fields with
  | [] => VUndefined
  | (k', v) :: rest => if str_eqb k k' then v else lookup k rest
  end.

(** ToBoolean. *)
Definition truthy (v : value) : bool :=
  match v with
  | VUndefined | VNull => false
  | VBool b => b
  | VNumber (S754_zero _) | VNumber S754_nan => false
  | VNumber _ => true
  | VString [] => false
  | VString (_ :: _) => true
  | VObject _ | VArray _ => true
  end.

Definition nullish (v : value) : bool :=
  match v with
  | VUndefined | VNull => true
  | _ => false
  end.

(** [a || b] *)
Definition or_else (a b : value) : value := if truthy a then a else b.

(** An array index written as a property key: a decimal numeral without a
    superfluous leading zero. *)
Definition is_digit (c : code_unit) : bool := (0x30 <=? c) && (c <=? 0x39).

Definition index_of_key (k : jsstring) : option nat :=
  match k with
  | [] => None
  | c :: r =>
      if forallb is_digit k && (negb (c =? 0x30) || match r with [] => true | _ => false end)
      then Some (N.to_nat (fold_left (fun acc d => acc * 10 + (d - 0x30)) k 0))
      else None
  end.

(** [v[k]] for a [v] that is neither undefined nor null, for the property
    names the handler reads (message, choices, 0, content, response, data):
    own fields of objects, elements of arrays and of strings; none of these
    names is inherited from a prototype. *)
Definition get (v : value) (k : jsstring) : value :=
  match v with
  | VObject fields => lookup k fields
  | VArray items =>
      match index_of_key k with
      | Some n => nth n items VUndefined
      | None => VUndefined
      end
  | VString s =>
      match index_of_key k with
      | Some n => match nth_error s n with Some c => VString [c] | None => VUndefined end
      | None => VUndefined
      end
  | _ => VUndefined
  end.

(** [v?.[k]] *)
Definition opt_get (v : value) (k : jsstring) : value :=
  if nullish v then VUndefined else get v k.

(** The trace of a request: upstream calls, console lines and responses, in
    the order in which they happen. *)
Record message : Type := { role : jsstring; content : jsstring }.

Record create_args : Type := {
  model : jsstring;
  messages : list message;
  max_tokens : N;
  temperature : spec_float
}.

Record response : Type := { status : N; body : value }.

Inductive event : Type :=
| Call (args : create_args)
| ConsoleError (line : list value)
| Send (r : response).

(** Computations of the handler: the events emitted so far and a completion. *)
Definition M (A : Type) : Type := (list event * completion A)%type.

Definition ret {A} (a : A) : M A := ([], Normal a).

Definition bind {A B} (m : M A) (f : A -> M B) : M B :=
  match m with
  | (t, Normal a) => let (t', r) := f a in (t ++ t', r)
  | (t, Throw e) => (t, Throw e)
  end.

Definition lift {A} (c : completion A) : M A := ([], c).

Definition emit (ev : event) : M unit := ([ev], Normal tt).

Definition try_catch {A} (m : M A) (handler : value -> M A) : M A :=
  match m with
  | (t, Throw e) => let (t', r) := handler e in (t ++ t', r)
  | (t, Normal a) => (t, Normal a)
  end.

Notation "x <- m ;; f" := (bind m (fun x => f))
  (at level 61, m at next level, right associativity).
Notation "m ;;; f" := (bind m (fun _ => f))
  (at level 61, right associativity).

(** [res.status(code).json(body)] *)
Definition send (code : N) (b : value) : M unit :=
  emit (Send {| status := code; body := b |}).

Definition nl : jsstring := [10].

(** The double nearest to 0.2. *)
Definition temperature_0_2 : spec_float := S754_finite false 0x1999999999999A (-55).

Section Server.

Variable lower_ext : jsstring -> code_unit -> jsstring -> jsstring.
Variable canon_ext : code_unit -> code_unit.

(** The environment of the process. *)
Variable env_TOPIC : option jsstring.
Variable env_OPENAI_MODEL : option jsstring.

(** The upstream service, as the value that the awaited promise of
    [openai.chat.completions.create] settles to. *)
Variable upstream : create_args -> completion value.

(** Built-ins of the runtime: the TypeError raised at a failing expression,
    [String(v)] and [JSON.stringify(v)]. *)
Variable TypeError : jsstring -> value.
Variable js_String : value -> jsstring.
Variable JSON_stringify : value -> value.

(** [process.env.X || fallback] *)
Definition env_or (x : option jsstring) (fallback : jsstring) : jsstring :=
  match x with
  | Some (c :: s) => c :: s
  | _ => fallback
  end.

Definition ALLOWED_POINT : jsstring := env_or env_TOPIC (js "articles (a / an / the)").
Definition MODEL : jsstring := env_or env_OPENAI_MODEL (js "gpt-4o-mini").

Definition SYSTEM_PROMPT : jsstring :=
  nl ++ js "You are a multilingual English teacher." ++ nl
  ++ nl
  ++ js "Current grammar focus: " ++ ALLOWED_POINT ++ js "." ++ nl
  ++ nl
  ++ js "Rules:" ++ nl
  ++ js "1) Detect the student's language from their message and ALWAYS reply in that same language" ++ nl
  ++ js "   (Portuguese, Spanish, Italian, French, or English). This includes refusals." ++ nl
  ++ js "2) If the student's question is NOT about " ++ ALLOWED_POINT ++ js ":" ++ nl
  ++ js "   - Politely explain (in the student's language) that this lesson focuses only on "
  ++ ALLOWED_POINT ++ js "." ++ nl
  ++ js "   - Encourage staying on topic." ++ nl
  ++ js "   - Give 2 short example questions they could ask about " ++ ALLOWED_POINT
  ++ js " (in the same language)." ++ nl
  ++ js "3) If the student's question IS about " ++ ALLOWED_POINT ++ js ":" ++ nl
  ++ js "   - Explain the rule clearly in the student's language (max 3 short lines)." ++ nl
  ++ js "   - Give 2 short English examples." ++ nl
  ++ js "   - Provide 3 short fill-in-the-gap practice items." ++ nl
  ++ js "4) Keep answers short, friendly, and A2–B1 clarity." ++ nl
  ++ js "5) Never switch languages unless the student switches first. Always mirror the student's language." ++ nl.

Definition LANG_HINT (detected : lang) : jsstring :=
  js "Student language detected: " ++ lang_name detected
  ++ js ". You MUST reply ONLY in " ++ lang_name detected
  ++ js ", including refusals and guidance. Never answer in any other language.".

(** [v.trim()] for a [v] that is neither undefined nor null: only strings
    have the method; on anything else the call raises a TypeError. *)
Definition call_trim (site : jsstring) (v : value) : completion jsstring :=
  match v with
  | VString s => Normal (trim s)
  | _ => Throw (TypeError site)
  end.

(** [v?.trim()] *)
Definition opt_call_trim (site : jsstring) (v : value) : completion value :=
  if nullish v then Normal VUndefined
  else match call_trim site v with
       | Normal s => Normal (VString s)
       | Throw e => Throw e
       end.

(** [v.k] *)
Definition get_prop (site : jsstring) (v : value) (k : jsstring) : completion value :=
  if nullish v then Throw (TypeError site) else Normal (get v k).

(** [await openai.chat.completions.create(args)] *)
Definition create (args : create_args) : M value := ([Call args], upstream args).

(** The [catch] block of the handler. *)
Definition on_error (err : value) : M unit :=
  let detail :=
    or_else (opt_get (opt_get err (js "response")) (js "data"))
      (or_else (opt_get err (js "message")) (VString (js_String err))) in
  emit (ConsoleError [VString (js "LLM error:"); detail]) ;;;
  send 500
    (VObject [(js "error",
               match detail with
               | VString _ => detail
               | _ => JSON_stringify detail
               end)]).

(** The argument of the upstream call (lines 73-82). *)
Definition request_args (userText : jsstring) : create_args :=
  let detected := detectLangFromText lower_ext canon_ext userText in
  {| model := MODEL;
     messages :=
       [ {| role := js "system"; content := LANG_HINT detected |};
         {| role := js "system"; content := SYSTEM_PROMPT |};
         {| role := js "user"; content := userText |} ];
     max_tokens := 700;
     temperature := temperature_0_2 |}.

(** What the handler does with the settled response (lines 84-88). *)
Definition relay (chatResponse : value) : M unit :=
  choices <- lift (get_prop (js "chatResponse.choices") chatResponse (js "choices")) ;;
  answer <- lift (opt_call_trim (js "content?.trim")
                    (opt_get (opt_get (opt_get choices (js "0")) (js "message"))
                       (js "content"))) ;;
  if negb (truthy answer)
  then send 502 (VObject [(js "error", VString (js "No answer from model"))])
  else send 200 (VObject [(js "answer", answer)]).

(** The handler of [POST /ask] (server.js, lines 64-94), on the parsed body
    [req.body] of the request. *)
Definition ask_handler (req_body : value) : M unit :=
  try_catch
    (userText <- lift (call_trim (js "(req.body?.message || ...).trim")
                         (or_else (opt_get req_body (js "message")) (VString []))) ;;
     if negb (truthy (VString userText))
     then send 400 (VObject [(js "error", VString (js "Empty message"))])
     else
       chatResponse <- create (request_args userText) ;;
       relay chatResponse)
    on_error.

(** [ask(userText)]: a request whose body is [{ message: userText }]. *)
Definition ask (userText : jsstring) : M unit :=
  ask_handler (VObject [(js "message", VString userText)]).

End Server.


(** The upstream calls of a trace. *)
Fixpoint calls_of (t : list event) : list create_args :=
  match t with
  | [] => []
  | Call a :: t' => a :: calls_of t'
  | _ :: t' => calls_of t'
  end.

(** The responses of a trace. *)
Fixpoint responses_of (t : list event) : list response :=
  match t with
  | [] => []
  | Send r :: t' => r :: responses_of t'
  | _ :: t' => responses_of t'
  end.



(** ** The detector's vocabulary, as the specification words it *)

(** The keywords of rules 1 to 4. *)
Definition listed_keywords : list jsstring :=
  [ js "artigos"; js "quando"; js "como"; js "porque"; js "por que";
    js "artículos"; js "cuándo"; js "cómo"; js "por qué";
    js "perché"; js "quando"; js "come"; js "articoli";
    js "pourquoi"; js "quand"; js "comment"; js "articles" ].

(** ASCII letters and digits, and ASCII white space. *)
Definition is_ascii_alnum (c : code_unit) : bool :=
  ((0x30 <=? c) && (c <=? 0x39)) || ((0x41 <=? c) && (c <=? 0x5A))
  || ((0x61 <=? c) && (c <=? 0x7A)).

Definition is_ascii_space (c : code_unit) : bool :=
  ((9 <=? c) && (c <=? 13)) || (c =? 0x20).

Definition plain_ascii (text : jsstring) : Prop :=
  Forall (fun c => is_ascii_alnum c = true \/ is_ascii_space c = true) text.

(** The keyword [kw] (written in lower case) stands at the head of [rest], in
    any letter case, and no word character follows it. *)
Fixpoint keyword_here (kw rest : jsstring) : bool :=
  match kw with
  | [] => negb (head_is_word rest)
  | c :: kw' =>
      match rest with
      | [] => false
      | x :: rest' => (latin1_lower x =? c) && keyword_here kw' rest'
      end
  end.

(** A whole-word occurrence of [kw] somewhere in [rest], [prev] being the
    text before [rest] (nearest unit first). *)
Fixpoint keyword_from (kw prev rest : jsstring) : bool :=
  (negb (head_is_word prev) && keyword_here kw rest) ||
  match rest with
  | [] => false
  | x :: rest' => keyword_from kw (x :: prev) rest'
  end.

Definition whole_word_occurrence (kw text : jsstring) : bool :=
  keyword_from kw [] text.

(** ** The error detail, as the specification words it *)

Section Detail.

Variable js_String : value -> jsstring.

(** The payload that the service sent with the failure, when there is one. *)
Definition service_payload (err : value) : option value :=
  let p := opt_get (opt_get err (js "response")) (js "data") in
  if truthy p then Some p else None.

(** The message of the exception, when there is one. *)
Definition exception_message (err : value) : option value :=
  let m := opt_get err (js "message") in
  if truthy m then Some m else None.

(** The most specific available detail: the payload, else the message, else
    the exception turned into a string. *)
Definition most_specific_detail (err : value) : value :=
  match service_payload err with
  | Some p => p
  | None =>
      match exception_message err with
      | Some m => m
      | None => VString (js_String err)
      end
  end.

End Detail.

(** ** Stand-ins for the runtime, used to run the handler on examples *)

(** A lower-case table beyond Latin-1 that knows the capital letters whose
    lower-case form reaches into Latin-1 (dotted capital I, Y with diaeresis,
    capital sharp s, Kelvin sign, Angstrom sign) and the basic Greek and
    Cyrillic capitals. *)
Definition sample_lower_ext (before : jsstring) (c : code_unit) (after : jsstring)
  : jsstring :=
  if c =? 0x130 then [0x69; 0x307]
  else if c =? 0x178 then [0xFF]
  else if c =? 0x1E9E then [0xDF]
  else if c =? 0x212A then [0x6B]
  else if c =? 0x212B then [0xE5]
  else if (0x391 <=? c) && (c <=? 0x3A1) then [c + 32]
  else if (0x410 <=? c) && (c <=? 0x42F) then [c + 32]
  else [c].

Definition sample_canon_ext (c : code_unit) : code_unit :=
  if (0x3B1 <=? c) && (c <=? 0x3C1) then c - 32
  else if (0x430 <=? c) && (c <=? 0x44F) then c - 32
  else c.

Definition sample_TypeError (site : jsstring) : value :=
  VObject [(js "message", VString (site ++ js " is not a function"))].

Definition sample_String (v : value) : jsstring :=
  match v with
  | VString s => s
  | VUndefined => js "undefined"
  | VNull => js "null"
  | VBool true => js "true"
  | VBool false => js "false"
  | VNumber _ => js "NaN"
  | VObject _ => js "[object Object]"
  | VArray _ => []
  end.

Definition sample_stringify (v : value) : value :=
  match v with
  | VNull => VString (js "null")
  | VBool true => VString (js "true")
  | VBool false => VString (js "false")
  | VObject [] => VString (js "{}")
  | VArray [] => VString (js "[]")
  | _ => VUndefined
  end.

(** An upstream that answers every call with the same response, and one that
    fails every call with the same exception. *)
Definition upstream_answering (r : value) (_ : create_args) : completion value :=
  Normal r.

Definition upstream_failing (err : value) (_ : create_args) : completion value :=
  Throw err.

(** The two shapes of a keyword of the detector: it holds an accented
    Latin-1 letter, or it is made of small ASCII letters and spaces and
    starts and ends with a letter. *)
Definition is_accented (c : code_unit) : bool := (128 <=? c) && (c <? 256).

Definition is_small_or_space (c : code_unit) : bool :=
  ((0x61 <=? c) && (c <=? 0x7A)) || (c =? 0x20).

Definition keyword_shape (kw : jsstring) : bool :=
  existsb is_accented kw
  || (forallb is_small_or_space kw && head_is_word kw && head_is_word (rev kw)).

(** The detector under the stand-in case tables. *)
Definition sample_detect (text : jsstring) : lang :=
  detectLangFromText sample_lower_ext sample_canon_ext text.

(** The handler under the stand-ins. *)
Definition sample_ask (upstream : create_args -> completion value)
    (userText : jsstring) : M unit :=
  ask sample_lower_ext sample_canon_ext None None upstream sample_TypeError
    sample_String sample_stringify userText.

Definition sample_args (userText : jsstring) : create_args :=
  request_args sample_lower_ext sample_canon_ext None None userText.

(** The console lines of a trace. *)
Fixpoint console_of (t : list event) : list (list value) :=
  match t with
  | [] => []
  | ConsoleError line :: t' => line :: console_of t'
  | _ :: t' => console_of t'
  end.

Definition is_string (v : value) : bool :=
  match v with
  | VString _ => true
  | _ => false
  end.

Section Failure.

Variable js_String : value -> jsstring.
Variable JSON_stringify : value -> value.

(** What a failure leaves in the trace: the console line with the detail,
    and the 500 response with the detail as a string. *)
Definition failure_trace (err : value) : list event :=
  [ConsoleError [VString (js "LLM error:"); most_specific_detail js_String err];
   Send {| status := 500;
           body := VObject
             [(js "error",
               match most_specific_detail js_String err with
               | VString d => VString d
               | d => JSON_stringify d
               end)] |}].

End Failure.

(** ** Start-up: the listen loop with port fallback (server.js, lines 105-121) *)

(** [`${n}`] for a natural number [n]: its decimal numeral. *)
Fixpoint digits (d : Decimal.uint) : jsstring :=
  match d with
  | Decimal.Nil => []
  | Decimal.D0 d' => 0x30 :: digits d'
  | Decimal.D1 d' => 0x31 :: digits d'
  | Decimal.D2 d' => 0x32 :: digits d'
  | Decimal.D3 d' => 0x33 :: digits d'
  | Decimal.D4 d' => 0x34 :: digits d'
  | Decimal.D5 d' => 0x35 :: digits d'
  | Decimal.D6 d' => 0x36 :: digits d'
  | Decimal.D7 d' => 0x37 :: digits d'
  | Decimal.D8 d' => 0x38 :: digits d'
  | Decimal.D9 d' => 0x39 :: digits d'
  end.

Definition decimal (n : N) : jsstring := digits (N.to_uint n).

(** What [app.listen(port)] leads to: the server emits [listening], or it
    emits [error] with an error object, or the call itself throws. *)
Inductive listen_result : Type :=
| Listening
| ListenError (err : value)
| ListenThrows (e : value).

Inductive boot_event : Type :=
| Listen (port : N)
| ConsoleLog (line : jsstring)
| ConsoleErr (line : list value).

(** How start-up ends: the server is up on a port, the process has exited
    with a status, or an exception went uncaught. *)
Inductive boot_end : Type :=
| Serving (port : N)
| Exited (code : N)
| Uncaught (e : value).

(** [v === s] for a string literal [s]. *)
Definition strict_equals_string (v : value) (s : jsstring) : bool :=
  match v with
  | VString s' => str_eqb s' s
  | _ => false
  end.

Definition running_line (port : N) : jsstring :=
  js "✅ Teacher running on " ++ (js "http://localhost:" ++ decimal port).

Definition retry_line (port next : N) : jsstring :=
  js "⚠️ Porta " ++ decimal port ++ js " ocupada. Tentando " ++ decimal next ++ js "...".

Section Boot.

(** The network: what binding each port leads to. *)
Variable listen : N -> listen_result.
Variable TypeError : jsstring -> value.

Function listenOn (port : N) (tried : nat) {measure (fun t => (5 - t)%nat) tried}
  : list boot_event * boot_end :=
  match listen port with
  | Listening => ([Listen port; ConsoleLog (running_line port)], Serving port)
  | ListenThrows e => ([Listen port], Uncaught e)
  | ListenError err =>
      match get_prop TypeError (js "err.code") err (js "code") with
      | Throw e => ([Listen port], Uncaught e)
      | Normal code =>
          match strict_equals_string code (js "EADDRINUSE") && (tried <? 5)%nat with
          | true =>
              let next := port + 1 in
              let rest := listenOn next (S tried) in
              (Listen port :: ConsoleLog (retry_line port next) :: fst rest, snd rest)
          | false =>
              ([Listen port; ConsoleErr [VString (js "Server listen error:"); err]],
               Exited 1)
          end
      end
  end.
Proof.
  intros port tried err Hl code Hc Hb.
  apply andb_true_iff in Hb. destruct Hb as [_ Hb]. apply Nat.ltb_lt in Hb. lia.
Defined.

End Boot.


(** The bind failed because the address is in use: the error object has the
    code EADDRINUSE. *)
Definition address_in_use (r : listen_result) : bool :=
  match r with
  | ListenError err =>
      negb (nullish err) && strict_equals_string (get err (js "code")) (js "EADDRINUSE")
  | _ => false
  end.

(** The ports that a start-up trace tried to bind, in order. *)
Fixpoint attempts_of (t : list boot_event) : list N :=
  match t with
  | [] => []
  | Listen p :: t' => p :: attempts_of t'
  | _ :: t' => attempts_of t'
  end.

(** The [k] ports from [port] upwards. *)
Definition ports_from (port : N) (k : nat) : list N :=
  map (fun j => port + N.of_nat j) (seq 0 k).

(** Sample networks: the ports below [free] are taken; every port is
    taken; the port [base] is taken and the next one may not be bound. *)
Definition in_use_error : value :=
  VObject [(js "code", VString (js "EADDRINUSE")); (js "syscall", VString (js "listen"))].

Definition listen_free_from (free : N) (port : N) : listen_result :=
  if port <? free then ListenError in_use_error else Listening.

Definition listen_all_taken (port : N) : listen_result := ListenError in_use_error.

Definition access_error : value :=
  VObject [(js "code", VString (js "EACCES")); (js "syscall", VString (js "listen"))].

Definition listen_denied_after (base : N) (port : N) : listen_result :=
  if port =? base then ListenError in_use_error else ListenError access_error.

(** ** The detector on plain text, as a first-match over keyword lists *)

(** The keyword lists of the four rules, in source order. *)
Definition pt_keywords : list jsstring :=
  [js "artigos"; js "quando"; js "como"; js "porque"; js "por que"].
Definition es_keywords : list jsstring :=
  [js "artículos"; js "cuándo"; js "cómo"; js "por qué"].
Definition it_keywords : list jsstring :=
  [js "perché"; js "quando"; js "come"; js "articoli"].
Definition fr_keywords : list jsstring :=
  [js "pourquoi"; js "quand"; js "comment"; js "articles"].

Definition occurs_any (kws : list jsstring) (text : jsstring) : bool :=
  existsb (fun kw => whole_word_occurrence kw text) kws.

(** The label of the first rule one of whose keywords occurs in the text as
    a whole word. *)
Definition keyword_label (text : jsstring) : lang :=
  if occurs_any pt_keywords text then Portuguese
  else if occurs_any es_keywords text then Spanish
  else if occurs_any it_keywords text then Italian
  else if occurs_any fr_keywords text then French
  else English.

(** Boolean comparisons turned into propositions, then linear arithmetic. *)
Ltac bool_to_prop :=
  repeat rewrite ?orb_true_iff, ?andb_true_iff, ?orb_false_iff, ?andb_false_iff,
    ?negb_true_iff, ?negb_false_iff, ?N.leb_le, ?N.leb_gt, ?N.ltb_lt, ?N.ltb_ge,
    ?N.eqb_eq, ?N.eqb_neq in *.

Ltac bool_lia := bool_to_prop; lia.

(** * Properties of the detector on the sample sentences *)

(** The decoding of source literals, on a sample with two- and three-byte
    characters. *)
Example js_sample : js "ñ¡¿ A–" = [0xF1; 0xA1; 0xBF; 0x20; 0x41; 0x2013].
Proof. reflexivity. Qed.


(** Word boundaries at work: "como" is found as a word of its own, in any
    letter case, and not inside "comodo", next to an underscore or after a
    letter. *)
Example whole_word_samples :
  map (whole_word_occurrence (js "como"))
    [js "como"; js "comodo"; js " Como "; js "x como"; js "xcomo"]
  = [true; false; true; true; false].
Proof. reflexivity. Qed.

Example boundary_samples :
  map sample_detect [js "como"; js "comodo"; js "como_"; js "COMO"; js "El niño"; js ""]
  = [Portuguese; English; English; Portuguese; Spanish; English].
Proof. reflexivity. Qed.

(** C1. On the four accented sample sentences the detector answers
    Portuguese for the Portuguese sentence and French for the French one, but
    it also answers Portuguese for the Spanish and for the Italian sentence:
    both contain an e with acute accent, which the first rule's character
    class holds. *)
Theorem detect_accented_samples :
  forall lower_ext canon_ext,
    detectLangFromText lower_ext canon_ext (js "Por que os artigos são importantes?") = Portuguese
    /\ detectLangFromText lower_ext canon_ext (js "¿Por qué uso artículos?") = Portuguese
    /\ detectLangFromText lower_ext canon_ext (js "Perché uso gli articoli?") = Portuguese
    /\ detectLangFromText lower_ext canon_ext (js "Pourquoi utiliser des articles?") = French.
Proof.
  intros lower_ext canon_ext.
  repeat split; vm_compute; reflexivity.
Qed.

(** C2. On "Why do we use articles?" the detector answers French, not
    English: the word "articles" is a keyword of the fourth rule. *)
Theorem detect_why_do_we_use_articles :
  forall lower_ext canon_ext,
    detectLangFromText lower_ext canon_ext (js "Why do we use articles?") = French.
Proof.
  intros lower_ext canon_ext. vm_compute. reflexivity.
Qed.

(** * Properties of the handler *)

Section HandlerFacts.

Variable lower_ext : jsstring -> code_unit -> jsstring -> jsstring.
Variable canon_ext : code_unit -> code_unit.
Variable env_TOPIC : option jsstring.
Variable env_OPENAI_MODEL : option jsstring.
Variable upstream : create_args -> completion value.
Variable TypeError : jsstring -> value.
Variable js_String : value -> jsstring.
Variable JSON_stringify : value -> value.

Local Abbreviation handler :=
  (ask_handler lower_ext canon_ext env_TOPIC env_OPENAI_MODEL upstream TypeError
     js_String JSON_stringify).
Local Abbreviation args_of :=
  (request_args lower_ext canon_ext env_TOPIC env_OPENAI_MODEL).
Local Abbreviation catch := (on_error js_String JSON_stringify).

Lemma calls_of_app (t1 t2 : list event) :
  calls_of (t1 ++ t2) = calls_of t1 ++ calls_of t2.
Proof.
  induction t1 as [|ev t1 IH]; simpl; [reflexivity|].
  destruct ev; simpl; rewrite IH; reflexivity.
Qed.

(** A request whose message is a string with a non-empty trimmed form
    reaches the upstream call; what follows depends on how the call
    settles. *)
Lemma handler_resolved (req_body : value) (s : jsstring) (r : value) :
  or_else (opt_get req_body (js "message")) (VString []) = VString s ->
  trim s <> [] ->
  upstream (args_of (trim s)) = Normal r ->
  handler req_body =
    (Call (args_of (trim s)) :: fst (try_catch (relay TypeError r) catch),
     snd (try_catch (relay TypeError r) catch)).
Proof.
  intros Hmsg Hne Hup.
  unfold ask_handler. rewrite Hmsg. unfold call_trim, lift, bind.
  destruct (trim s) as [|c u] eqn:Ht; [congruence|].
  cbn [truthy negb]. unfold create. rewrite Hup.
  destruct (relay TypeError r) as [t [a|e]]; cbn [try_catch app fst snd].
  - reflexivity.
  - destruct (catch e) as [t' c']. reflexivity.
Qed.

Lemma handler_rejected (req_body : value) (s : jsstring) (err : value) :
  or_else (opt_get req_body (js "message")) (VString []) = VString s ->
  trim s <> [] ->
  upstream (args_of (trim s)) = Throw err ->
  handler req_body =
    (Call (args_of (trim s)) :: fst (catch err), snd (catch err)).
Proof.
  intros Hmsg Hne Hup.
  unfold ask_handler. rewrite Hmsg. unfold call_trim, lift, bind.
  destruct (trim s) as [|c u] eqn:Ht; [congruence|].
  cbn [truthy negb]. unfold create. rewrite Hup.
  cbn [try_catch app].
  destruct (catch err) as [t' c']. reflexivity.
Qed.

Lemma relay_no_answer (r choices : value) :
  get_prop TypeError (js "chatResponse.choices") r (js "choices") = Normal choices ->
  opt_call_trim TypeError (js "content?.trim")
    (opt_get (opt_get (opt_get choices (js "0")) (js "message")) (js "content"))
    = Normal VUndefined
  \/ opt_call_trim TypeError (js "content?.trim")
       (opt_get (opt_get (opt_get choices (js "0")) (js "message")) (js "content"))
     = Normal (VString []) ->
  try_catch (relay TypeError r) catch =
    ([Send {| status := 502;
              body := VObject [(js "error", VString (js "No answer from model"))] |}],
     Normal tt).
Proof.
  intros Hc Ha. unfold relay. rewrite Hc.
  destruct Ha as [Ha|Ha]; unfold lift, bind; rewrite Ha; reflexivity.
Qed.

Lemma on_error_no_calls (err : value) : calls_of (fst (catch err)) = [].
Proof. reflexivity. Qed.

Lemma relay_no_calls (r : value) : calls_of (fst (relay TypeError r)) = [].
Proof.
  unfold relay, lift, bind.
  destruct (get_prop _ _ r _) as [choices|e]; [|reflexivity].
  destruct (opt_call_trim _ _ _) as [answer|e]; [|reflexivity].
  destruct (negb (truthy answer)); reflexivity.
Qed.

Lemma ask_message (u : jsstring) :
  or_else (opt_get (VObject [(js "message", VString u)]) (js "message")) (VString [])
  = VString u.
Proof. destruct u; reflexivity. Qed.

Local Abbreviation ask' :=
  (ask lower_ext canon_ext env_TOPIC env_OPENAI_MODEL upstream TypeError
     js_String JSON_stringify).

(** C4. A request whose message is missing (no body, no field, or null) or
    is a string that trims to the empty string is answered with status 400
    and body [{ error: "Empty message" }], and the trace of the request holds
    no upstream call. *)
Theorem empty_message_rejected (req_body : value) :
  opt_get req_body (js "message") = VUndefined
  \/ opt_get req_body (js "message") = VNull
  \/ (exists s, opt_get req_body (js "message") = VString s /\ trim s = []) ->
  handler req_body =
    ([Send {| status := 400;
              body := VObject [(js "error", VString (js "Empty message"))] |}],
     Normal tt)
  /\ calls_of (fst (handler req_body)) = [].
Proof.
  intros H.
  assert (E : handler req_body =
    ([Send {| status := 400;
              body := VObject [(js "error", VString (js "Empty message"))] |}],
     Normal tt)).
  { unfold ask_handler.
    destruct H as [H|[H|[s [H Hs]]]]; rewrite H.
    - reflexivity.
    - reflexivity.
    - assert (Hor : or_else (VString s) (VString []) = VString s)
        by (destruct s; reflexivity).
      rewrite Hor. unfold call_trim. rewrite Hs. reflexivity. }
  split; [exact E|]. rewrite E. reflexivity.
Qed.

(** C5. [ask("Hello")] calls the upstream service exactly once; the call
    carries three messages, the first one's content contains "English", which
    is the detector's answer for "Hello", and the last one's content is the
    trimmed input. *)
Theorem ask_hello_single_call :
  exists args c1 c2,
    calls_of (fst (ask' (js "Hello"))) = [args]
    /\ List.length (messages args) = 3%nat
    /\ map content (messages args) = [c1; c2; trim (js "Hello")]
    /\ includes (js "English") c1 = true
    /\ lang_name (detectLangFromText lower_ext canon_ext (trim (js "Hello"))) = js "English"
    /\ includes (lang_name (detectLangFromText lower_ext canon_ext (trim (js "Hello")))) c1
       = true.
Proof.
  exists (args_of (trim (js "Hello"))),
         (LANG_HINT English), (SYSTEM_PROMPT env_TOPIC).
  split.
  - unfold ask.
    destruct (upstream (args_of (trim (js "Hello")))) as [r|err] eqn:Hup.
    + rewrite (handler_resolved _ _ _ (ask_message (js "Hello")) ltac:(discriminate) Hup).
      cbn [fst calls_of]. f_equal.
      destruct (relay TypeError r) as [t [a|e]] eqn:Hr; cbn [try_catch fst].
      * pose proof (relay_no_calls r) as Hn. rewrite Hr in Hn. exact Hn.
      * pose proof (relay_no_calls r) as Hn. rewrite Hr in Hn. cbn [fst] in Hn.
        destruct (catch e) as [t' c'] eqn:Hc. cbn [fst].
        rewrite calls_of_app, Hn.
        pose proof (on_error_no_calls e) as Hn'. rewrite Hc in Hn'. exact Hn'.
    + rewrite (handler_rejected _ _ _ (ask_message (js "Hello")) ltac:(discriminate) Hup).
      reflexivity.
  - repeat split; vm_compute; reflexivity.
Qed.

(** C6. When the upstream call settles with a response whose first choice
    has a message without content, with null content, or with a content that
    trims to the empty string, the request is answered with status 502 and
    body [{ error: "No answer from model" }]. *)
Theorem missing_content_is_502 (userText : jsstring) (r : value)
    (fields cfields mfields : list (jsstring * value)) (first : value)
    (rest : list value) :
  trim userText <> [] ->
  upstream (args_of (trim userText)) = Normal r ->
  r = VObject fields ->
  lookup (js "choices") fields = VArray (first :: rest) ->
  first = VObject cfields ->
  lookup (js "message") cfields = VObject mfields ->
  lookup (js "content") mfields = VUndefined
  \/ lookup (js "content") mfields = VNull
  \/ (exists s, lookup (js "content") mfields = VString s /\ trim s = []) ->
  ask' userText =
    ([Call (args_of (trim userText));
      Send {| status := 502;
              body := VObject [(js "error", VString (js "No answer from model"))] |}],
     Normal tt).
Proof.
  intros Hne Hup -> Hch -> Hmsg Hcontent.
  unfold ask. rewrite (handler_resolved _ _ _ (ask_message userText) Hne Hup).
  rewrite (@relay_no_answer (VObject fields) (VArray (VObject cfields :: rest))).
  - reflexivity.
  - unfold get_prop. cbn [nullish get]. rewrite Hch. reflexivity.
  - change (opt_get (VArray (VObject cfields :: rest)) (js "0"))
      with (VObject cfields).
    change (opt_get (VObject cfields) (js "message"))
      with (lookup (js "message") cfields).
    rewrite Hmsg.
    change (opt_get (VObject mfields) (js "content"))
      with (lookup (js "content") mfields).
    destruct Hcontent as [H|[H|[s [H Hs]]]]; rewrite H.
    + left; reflexivity.
    + left; reflexivity.
    + right. unfold opt_call_trim, call_trim. cbn [nullish]. rewrite Hs. reflexivity.
Qed.

(** C7. When the upstream call fails with the exception [err], the detail
    is the service payload [err.response.data] if there is one, else
    [err.message] if there is one, else [String(err)]; the detail is written
    to the console, and the request is answered with status 500 and the
    detail as error string (serialised when it is not a string). *)
Theorem upstream_failure_is_500 (userText : jsstring) (err : value) :
  trim userText <> [] ->
  upstream (args_of (trim userText)) = Throw err ->
  ask' userText =
    ([Call (args_of (trim userText));
      ConsoleError [VString (js "LLM error:"); most_specific_detail js_String err];
      Send {| status := 500;
              body := VObject
                [(js "error",
                  match most_specific_detail js_String err with
                  | VString d => VString d
                  | d => JSON_stringify d
                  end)] |}],
     Normal tt).
Proof.
  intros Hne Hup.
  unfold ask. rewrite (handler_rejected _ _ _ (ask_message userText) Hne Hup).
  unfold on_error, most_specific_detail, service_payload, exception_message, or_else.
  destruct (truthy (opt_get (opt_get err (js "response")) (js "data"))) eqn:Hp.
  - destruct (opt_get (opt_get err (js "response")) (js "data")); reflexivity.
  - destruct (truthy (opt_get err (js "message"))) eqn:Hm.
    + destruct (opt_get err (js "message")); reflexivity.
    + reflexivity.
Qed.

(** C10. When the upstream call settles with a response that has no
    choices, an empty choices array, or a first choice without message, the
    handler completes normally with the 502 answer of the missing-content
    case: nothing is thrown, so the 500 path is not taken. *)
Theorem no_choice_is_502 (userText : jsstring) (r : value) :
  trim userText <> [] ->
  upstream (args_of (trim userText)) = Normal r ->
  nullish r = false ->
  get r (js "choices") = VUndefined
  \/ get r (js "choices") = VArray []
  \/ (exists first rest,
        get r (js "choices") = VArray (first :: rest)
        /\ opt_get first (js "message") = VUndefined) ->
  ask' userText =
    ([Call (args_of (trim userText));
      Send {| status := 502;
              body := VObject [(js "error", VString (js "No answer from model"))] |}],
     Normal tt)
  /\ responses_of (fst (ask' userText)) =
       [{| status := 502;
           body := VObject [(js "error", VString (js "No answer from model"))] |}].
Proof.
  intros Hne Hup Hr Hshape.
  assert (E : ask' userText =
    ([Call (args_of (trim userText));
      Send {| status := 502;
              body := VObject [(js "error", VString (js "No answer from model"))] |}],
     Normal tt)).
  { unfold ask. rewrite (handler_resolved _ _ _ (ask_message userText) Hne Hup).
    rewrite (@relay_no_answer r (get r (js "choices"))).
    - reflexivity.
    - unfold get_prop. rewrite Hr. reflexivity.
    - left. destruct Hshape as [H|[H|[first [rest [H Hm]]]]]; rewrite H.
      + reflexivity.
      + reflexivity.
      + change (opt_get (VArray (first :: rest)) (js "0")) with first.
        rewrite Hm. reflexivity. }
  split; [exact E|]. rewrite E. reflexivity.
Qed.

End HandlerFacts.

(** * Properties of the detector on arbitrary text *)

Lemma white_space_not_word (c : code_unit) :
  isWhiteSpace c = true -> isWordChar c = false.
Proof. unfold isWhiteSpace, isWordChar. intros H. bool_lia. Qed.

Lemma lower_keeps_word (c : code_unit) :
  isWordChar (latin1_lower c) = isWordChar c.
Proof.
  unfold latin1_lower.
  destruct (_ || _) eqn:E; [|reflexivity].
  apply eq_true_iff_eq. unfold isWordChar. bool_lia.
Qed.

Lemma trimStart_split (s : jsstring) :
  exists ws, s = ws ++ trimStart s /\ Forall (fun c => isWhiteSpace c = true) ws.
Proof.
  induction s as [|c s [ws [E F]]]; simpl.
  - exists []. split; [reflexivity | constructor].
  - destruct (isWhiteSpace c) eqn:Hc.
    + exists (c :: ws). split; [simpl; congruence | constructor; assumption].
    + exists []. split; [reflexivity | constructor].
Qed.

Lemma trim_split (s : jsstring) :
  exists ws1 ws2,
    s = ws1 ++ trim s ++ ws2
    /\ Forall (fun c => isWhiteSpace c = true) ws1
    /\ Forall (fun c => isWhiteSpace c = true) ws2.
Proof.
  destruct (trimStart_split s) as [ws1 [E1 F1]].
  destruct (trimStart_split (rev (trimStart s))) as [ws2 [E2 F2]].
  exists ws1, (rev ws2). repeat split.
  - unfold trim, trimEnd. rewrite <- rev_app_distr, <- E2, rev_involutive. exact E1.
  - exact F1.
  - apply Forall_rev. exact F2.
Qed.

Lemma in_trim (s : jsstring) (x : code_unit) : In x (trim s) -> In x s.
Proof.
  intros H. destruct (trim_split s) as [ws1 [ws2 [E _]]].
  rewrite E. apply in_or_app. right. apply in_or_app. left. exact H.
Qed.

Lemma in_trim_keeps (s : jsstring) (x : code_unit) :
  In x s -> isWhiteSpace x = false -> In x (trim s).
Proof.
  intros H Hx. destruct (trim_split s) as [ws1 [ws2 [E [F1 F2]]]].
  rewrite E in H.
  apply in_app_or in H. destruct H as [H|H].
  - rewrite Forall_forall in F1. rewrite (F1 _ H) in Hx. discriminate.
  - apply in_app_or in H. destruct H as [H|H]; [exact H|].
    rewrite Forall_forall in F2. rewrite (F2 _ H) in Hx. discriminate.
Qed.

Section MatcherFacts.

Variable lower_ext : jsstring -> code_unit -> jsstring -> jsstring.
Variable canon_ext : code_unit -> code_unit.

Local Abbreviation cmatch := (char_match canon_ext).
Local Abbreviation rm := (rmatch canon_ext).

(** A character class is found exactly when some unit of the input matches
    some member of the class. *)
Lemma search_class (i : bool) (cs : list code_unit) (prev rest : jsstring) :
  search canon_ext i (RClass cs) prev rest
  = existsb (fun x => existsb (cmatch i x) cs) rest.
Proof.
  revert prev. induction rest as [|x rest IH]; intros prev; simpl.
  - reflexivity.
  - rewrite IH, andb_true_r. reflexivity.
Qed.

Lemma test_class_true (i : bool) (cs : list code_unit) (s : jsstring) :
  test canon_ext i (RClass cs) s = true <->
  exists x c, In x s /\ In c cs /\ cmatch i x c = true.
Proof.
  unfold test. rewrite search_class, existsb_exists. split.
  - intros [x [Hx H]]. apply existsb_exists in H. destruct H as [c [Hc H]].
    exists x, c. auto.
  - intros [x [c [Hx [Hc H]]]]. exists x. split; [exact Hx|].
    apply existsb_exists. exists c. auto.
Qed.

(** A successful search succeeds at some start position. *)
Lemma search_true (i : bool) (r : regex) (prev rest : jsstring) :
  search canon_ext i r prev rest = true ->
  exists a b, rest = a ++ b /\ rm i r (rev a ++ prev) b (fun _ _ => true) = true.
Proof.
  revert prev. induction rest as [|x rest IH]; intros prev H; simpl in H.
  - rewrite orb_false_r in H. exists [], []. auto.
  - apply orb_true_iff in H. destruct H as [H|H].
    + exists [], (x :: rest). auto.
    + destruct (IH _ H) as [a [b [E M]]].
      exists (x :: a), b. split; [simpl; congruence|].
      simpl. rewrite <- app_assoc. exact M.
Qed.

(** A literal matches a stretch of input of its own length, unit by unit. *)
Lemma rmatch_lit (i : bool) (kw : jsstring) :
  forall prev rest k,
    rm i (lit kw) prev rest k = true ->
    exists m rest',
      rest = m ++ rest'
      /\ Forall2 (fun x c => cmatch i x c = true) m kw
      /\ k (rev m ++ prev) rest' = true.
Proof.
  induction kw as [|c kw IH]; intros prev rest k H; simpl in H.
  - exists [], rest. auto.
  - destruct rest as [|x rest]; [discriminate|].
    apply andb_true_iff in H. destruct H as [Hx H].
    destruct (IH _ _ _ H) as [m [rest' [E [F K]]]].
    exists (x :: m), rest'. repeat split.
    + simpl. congruence.
    + constructor; assumption.
    + simpl. rewrite <- app_assoc. exact K.
Qed.

Lemma rmatch_alts (i : bool) (ks : list jsstring) :
  forall k0 prev rest k,
    rm i (alts k0 ks) prev rest k = true ->
    exists kw, In kw (k0 :: ks) /\ rm i (lit kw) prev rest k = true.
Proof.
  induction ks as [|k1 ks IH]; intros k0 prev rest k H.
  - exists k0. split; [left; reflexivity | exact H].
  - change (rm i (lit k0) prev rest k || rm i (alts k1 ks) prev rest k = true) in H.
    apply orb_true_iff in H. destruct H as [H|H].
    + exists k0. split; [left; reflexivity | exact H].
    + destruct (IH _ _ _ _ H) as [kw [Hin M]].
      exists kw. split; [right; exact Hin | exact M].
Qed.

(** What a successful [\b(k0|...)\b] test found: a keyword, the stretch of
    input that matches it, and a word boundary on either side. *)
Lemma test_words_true (i : bool) (k0 : jsstring) (ks : list jsstring) (s : jsstring) :
  test canon_ext i (words k0 ks) s = true ->
  exists kw a m b,
    In kw (k0 :: ks)
    /\ s = a ++ m ++ b
    /\ Forall2 (fun x c => cmatch i x c = true) m kw
    /\ xorb (head_is_word (rev a)) (head_is_word (m ++ b)) = true
    /\ xorb (head_is_word (rev m ++ rev a)) (head_is_word b) = true.
Proof.
  intros H. apply search_true in H. destruct H as [a [rest [E H]]].
  rewrite app_nil_r in H. unfold words in H. simpl in H.
  apply andb_true_iff in H. destruct H as [B1 H].
  apply rmatch_alts in H. destruct H as [kw [Hin H]].
  apply rmatch_lit in H. destruct H as [m [b [E' [F H]]]].
  apply andb_true_iff in H. destruct H as [B2 _].
  exists kw, a, m, b. subst rest. auto.
Qed.

End MatcherFacts.

Lemma Forall2_in_right {A B} (P : A -> B -> Prop) (l : list A) (l' : list B) (c : B) :
  Forall2 P l l' -> In c l' -> exists x, In x l /\ P x c.
Proof.
  induction 1 as [|x y l l' Hxy _ IH]; intros Hin; [contradiction|].
  destruct Hin as [->|Hin].
  - exists x. split; [left; reflexivity | exact Hxy].
  - destruct (IH Hin) as [x' [Hx' Hp]]. exists x'. split; [right; exact Hx' | exact Hp].
Qed.

Section DetectorFacts.

Variable lower_ext : jsstring -> code_unit -> jsstring -> jsstring.
Variable canon_ext : code_unit -> code_unit.

Local Abbreviation detect := (detectLangFromText lower_ext canon_ext).
Local Abbreviation cmatch := (char_match canon_ext).
Local Abbreviation lower := (toLowerCase lower_ext).
Local Abbreviation rtest := (test canon_ext true).

(** Every unit of the lower-case form comes from a unit of the text. *)
Lemma lower_from_in (s : jsstring) :
  forall before x,
    In x (lower_from lower_ext before s) ->
    exists d,
      In d s
      /\ ((d < 256 /\ x = latin1_lower d)
          \/ (256 <= d /\ exists bef aft, In x (lower_ext bef d aft))).
Proof.
  induction s as [|c s IH]; intros before x H; simpl in H; [contradiction|].
  apply in_app_or in H. destruct H as [H|H].
  - exists c. split; [left; reflexivity|].
    destruct (N.ltb_spec c 256) as [L|L].
    + left. destruct H as [H|[]]. auto.
    + right. split; [exact L|]. exists before, s. exact H.
  - destruct (IH _ _ H) as [d [Hd Hx]]. exists d. split; [right; exact Hd | exact Hx].
Qed.

(** On Latin-1 text the lower-case form is taken unit by unit. *)
Lemma lower_from_latin1 (s : jsstring) :
  forall before,
    Forall (fun c => c < 256) s ->
    lower_from lower_ext before s = map latin1_lower s.
Proof.
  induction s as [|c s IH]; intros before F; simpl; [reflexivity|].
  inversion F as [|? ? Hc F']; subst.
  apply N.ltb_lt in Hc. rewrite Hc. simpl. f_equal. apply IH. exact F'.
Qed.

(** C3. A text that contains a c with cedilla, small or capital, is
    Portuguese whatever else it contains. *)
Theorem cedilla_is_portuguese (text : jsstring) :
  In 0xE7 text \/ In 0xC7 text -> detect text = Portuguese.
Proof.
  intros H. unfold detectLangFromText.
  assert (T : rtest pt_chars (trim text) = true).
  { unfold pt_chars. apply test_class_true.
    destruct H as [H|H].
    - exists 0xE7, 0xE7. repeat split.
      + apply in_trim_keeps; [exact H | reflexivity].
      + vm_compute. tauto.
    - exists 0xC7, 0xE7. repeat split.
      + apply in_trim_keeps; [exact H | reflexivity].
      + vm_compute. tauto. }
  cbv zeta. rewrite T. reflexivity.
Qed.

Section SpanishRule.

(** Two facts of the Unicode case tables: folding a unit beyond Latin-1 never
    lands inside Latin-1, and the lower-case form of a unit beyond Latin-1
    holds no Latin-1 unit other than i, k, sharp s, a with ring and y with
    diaeresis. *)
Hypothesis canon_ext_beyond : forall c, 256 <= c -> 256 <= canon_ext c.
Hypothesis lower_ext_latin1 :
  forall before c after x,
    256 <= c -> In x (lower_ext before c after) -> x < 256 ->
    In x [0x69; 0x6B; 0xDF; 0xE5; 0xFF].

Lemma match_small_letter (x c : code_unit) :
  0xE0 <= c -> c <= 0xFE -> c <> 0xF7 ->
  cmatch true x c = true -> x = c \/ x + 32 = c.
Proof using canon_ext_beyond.
  intros H1 H2 H3 H. unfold char_match, canonicalize in H.
  apply N.eqb_eq in H.
  assert (Hc : (c <? 256) = true) by (apply N.ltb_lt; lia).
  rewrite Hc in H.
  assert (Ec : latin1_canonicalize c = c - 32).
  { unfold latin1_canonicalize.
    destruct (_ || _) eqn:E; [reflexivity|]. exfalso. bool_lia. }
  rewrite Ec in H.
  destruct (N.ltb_spec x 256) as [L|L].
  - unfold latin1_canonicalize in H.
    destruct (_ || _) eqn:E.
    + bool_lia.
    + destruct (N.eqb_spec x 0xB5); [lia|].
      destruct (N.eqb_spec x 0xFF); [lia|]. lia.
  - pose proof (@canon_ext_beyond x L). lia.
Qed.

Lemma match_caseless (x c : code_unit) :
  c = 0xA1 \/ c = 0xBF -> cmatch true x c = true -> x = c.
Proof using canon_ext_beyond.
  intros Hc H. unfold char_match, canonicalize in H.
  apply N.eqb_eq in H.
  assert (Ec : (if c <? 256 then latin1_canonicalize c else canon_ext c) = c)
    by (destruct Hc; subst c; reflexivity).
  rewrite Ec in H.
  destruct (N.ltb_spec x 256) as [L|L].
  - unfold latin1_canonicalize in H.
    destruct (_ || _) eqn:E.
    + bool_lia.
    + destruct (N.eqb_spec x 0xB5); [lia|].
      destruct (N.eqb_spec x 0xFF); [lia|]. lia.
  - pose proof (@canon_ext_beyond x L). lia.
Qed.

(** An acute vowel in the text, small or capital, fires the first rule. *)
Lemma acute_vowel_fires_pt (t : jsstring) (d c : code_unit) :
  In c [0xE1; 0xE9; 0xED; 0xF3; 0xFA] ->
  d = c \/ d + 32 = c ->
  In d t ->
  rtest pt_chars t = true.
Proof.
  intros Hc Hd Hin. unfold pt_chars. apply test_class_true.
  exists d, c. split; [exact Hin|].
  simpl in Hc.
  repeat (destruct Hc as [<-|Hc];
    [ split; [vm_compute; tauto|];
      destruct Hd as [->|Hd]; [reflexivity|];
      match goal with
      | H : d + 32 = ?n |- _ =>
          assert (E : d = n - 32) by lia; vm_compute in E; rewrite E; reflexivity
      end |]).
  contradiction.
Qed.

Lemma es_keyword_has_acute (kw : jsstring) :
  In kw [js "artículos"; js "cuándo"; js "cómo"; js "por qué"] ->
  exists c, In c kw /\ In c [0xE1; 0xE9; 0xED; 0xF3].
Proof.
  intros [<-|[<-|[<-|[<-|[]]]]].
  - exists 0xED. split; vm_compute; tauto.
  - exists 0xE1. split; vm_compute; tauto.
  - exists 0xF3. split; vm_compute; tauto.
  - exists 0xE9. split; vm_compute; tauto.
Qed.

(** Whenever a Spanish keyword is found in the lower-case form, the first
    rule's character class matches the text. *)
Lemma es_words_shadowed (t : jsstring) :
  rtest es_words (lower t) = true -> rtest pt_chars t = true.
Proof using canon_ext_beyond lower_ext_latin1.
  intros H. unfold es_words in H. apply test_words_true in H.
  destruct H as [kw [a [m [b [Hkw [E [F _]]]]]]].
  destruct (es_keyword_has_acute _ Hkw) as [c [Hc Hacute]].
  destruct (@Forall2_in_right _ _ _ _ _ _ F Hc) as [x [Hx Hm]].
  assert (Hxc : x = c \/ x + 32 = c).
  { apply match_small_letter; [| | |exact Hm];
      simpl in Hacute; intuition (subst; lia). }
  assert (Hlow : In x (lower t)).
  { rewrite E. apply in_or_app. right. apply in_or_app. left. exact Hx. }
  apply lower_from_in in Hlow. destruct Hlow as [d [Hd [[L Ex]|[L [bef [aft Ex]]]]]].
  - apply acute_vowel_fires_pt with (d := d) (c := c).
    + simpl in *. tauto.
    + subst x. unfold latin1_lower in Hxc.
      destruct (_ || _) eqn:Ec in Hxc.
      * simpl in Hacute. bool_to_prop. lia.
      * tauto.
    + exact Hd.
  - exfalso.
    assert (Hx256 : x < 256) by (simpl in Hacute; intuition (subst; lia)).
    pose proof (@lower_ext_latin1 bef d aft x L Ex Hx256) as Hsmall.
    simpl in Hsmall, Hacute. intuition (subst; lia).
Qed.

(** C9, amended.  A Spanish keyword is found only in texts that the first
    rule has already claimed, and the detector answers Spanish only for a
    text that contains an n with tilde (small or capital), an inverted
    exclamation mark or an inverted question mark. *)
Theorem spanish_needs_spanish_mark (text : jsstring) :
  (rtest es_words (lower (trim text)) = true -> detect text = Portuguese)
  /\ (detect text = Spanish ->
      In 0xF1 text \/ In 0xD1 text \/ In 0xA1 text \/ In 0xBF text).
Proof using canon_ext_beyond lower_ext_latin1.
  split.
  - intros H. apply es_words_shadowed in H.
    unfold detectLangFromText. cbv zeta. rewrite H. reflexivity.
  - intros H. unfold detectLangFromText in H. cbv zeta in H.
    destruct (rtest pt_chars (trim text) || rtest pt_words (lower (trim text)))
      eqn:E1; [discriminate|].
    apply orb_false_iff in E1. destruct E1 as [Ept _].
    destruct (rtest es_chars (trim text) || rtest es_words (lower (trim text)))
      eqn:E2.
    + apply orb_true_iff in E2. destruct E2 as [E2|E2].
      * unfold es_chars in E2. apply test_class_true in E2.
        destruct E2 as [x [c [Hx [Hc Hm]]]].
        vm_compute in Hc.
        destruct Hc as [<-|[Hc|[Hc|[Hc|[Hc|[Hc|[<-|[<-|[]]]]]]]]].
        -- apply match_small_letter in Hm; [|lia|lia|lia].
           apply in_trim in Hx.
           destruct Hm as [->|Hm]; [left; exact Hx|].
           assert (x = 0xD1) by lia. subst x. right; left; exact Hx.
        -- exfalso. subst c.
           assert (Hm' := Hm). apply match_small_letter in Hm'; [|lia|lia|lia].
           rewrite (@acute_vowel_fires_pt (trim text) x 0xE1) in Ept;
             [discriminate | simpl; tauto | exact Hm' | exact Hx].
        -- exfalso. subst c.
           assert (Hm' := Hm). apply match_small_letter in Hm'; [|lia|lia|lia].
           rewrite (@acute_vowel_fires_pt (trim text) x 0xE9) in Ept;
             [discriminate | simpl; tauto | exact Hm' | exact Hx].
        -- exfalso. subst c.
           assert (Hm' := Hm). apply match_small_letter in Hm'; [|lia|lia|lia].
           rewrite (@acute_vowel_fires_pt (trim text) x 0xED) in Ept;
             [discriminate | simpl; tauto | exact Hm' | exact Hx].
        -- exfalso. subst c.
           assert (Hm' := Hm). apply match_small_letter in Hm'; [|lia|lia|lia].
           rewrite (@acute_vowel_fires_pt (trim text) x 0xF3) in Ept;
             [discriminate | simpl; tauto | exact Hm' | exact Hx].
        -- exfalso. subst c.
           assert (Hm' := Hm). apply match_small_letter in Hm'; [|lia|lia|lia].
           rewrite (@acute_vowel_fires_pt (trim text) x 0xFA) in Ept;
             [discriminate | simpl; tauto | exact Hm' | exact Hx].
        -- apply match_caseless in Hm; [|left; reflexivity].
           subst x. apply in_trim in Hx. right; right; left; exact Hx.
        -- apply match_caseless in Hm; [|right; reflexivity].
           subst x. apply in_trim in Hx. right; right; right; exact Hx.
      * apply es_words_shadowed in E2. congruence.
    + destruct (_ || _) in H; [discriminate|].
      destruct (_ || _) in H; discriminate.
Qed.

End SpanishRule.

Section PlainText.

Lemma head_is_word_app (l r : jsstring) :
  head_is_word l = true -> head_is_word (l ++ r) = true.
Proof. destruct l; [discriminate | trivial]. Qed.

Lemma head_is_word_app_ws (l w : jsstring) :
  head_is_word l = false ->
  Forall (fun c => isWhiteSpace c = true) w ->
  head_is_word (l ++ w) = false.
Proof.
  intros Hl F. destruct l as [|c l]; [|exact Hl].
  destruct F as [|c w Hc _]; [reflexivity|].
  simpl. apply white_space_not_word. exact Hc.
Qed.

Lemma head_is_word_lower (l : jsstring) :
  head_is_word (map latin1_lower l) = head_is_word l.
Proof. destruct l; [reflexivity | apply lower_keeps_word]. Qed.

(** A unit of plain text, once in lower case, is ASCII and no capital. *)
Lemma plain_unit_folded (d : code_unit) :
  is_ascii_alnum d = true \/ is_ascii_space d = true ->
  latin1_lower d < 128 /\ (latin1_lower d < 0x41 \/ 0x5A < latin1_lower d).
Proof.
  unfold is_ascii_alnum, is_ascii_space, latin1_lower. intros H.
  destruct (_ || _) eqn:E in |- *; bool_to_prop; lia.
Qed.

Lemma folded_no_accent (x c : code_unit) :
  x < 128 -> is_accented c = true -> cmatch true x c = false.
Proof.
  unfold is_accented, char_match, canonicalize. intros Hx Hc.
  apply andb_true_iff in Hc. destruct Hc as [Hc1 Hc2].
  rewrite Hc2. apply N.leb_le in Hc1.
  assert (Hx' : (x <? 256) = true) by (apply N.ltb_lt; lia).
  rewrite Hx'. apply N.eqb_neq.
  assert (latin1_canonicalize x < 128).
  { unfold latin1_canonicalize. destruct (_ || _) eqn:E; [bool_lia|].
    destruct (N.eqb_spec x 0xB5); [lia|]. destruct (N.eqb_spec x 0xFF); lia. }
  assert (128 <= latin1_canonicalize c).
  { unfold latin1_canonicalize. destruct (_ || _) eqn:E; [bool_lia|].
    destruct (N.eqb_spec c 0xB5); [lia|]. destruct (N.eqb_spec c 0xFF); lia. }
  lia.
Qed.

Lemma folded_match_exact (x c : code_unit) :
  x < 128 -> x < 0x41 \/ 0x5A < x ->
  is_small_or_space c = true -> cmatch true x c = true -> x = c.
Proof.
  unfold is_small_or_space, char_match, canonicalize. intros Hx Hn Hc H.
  assert (Hx' : (x <? 256) = true) by (apply N.ltb_lt; lia).
  assert (Hc' : (c <? 256) = true) by (apply N.ltb_lt; bool_lia).
  rewrite Hx', Hc' in H. apply N.eqb_eq in H.
  unfold latin1_canonicalize in H.
  destruct (_ || _) eqn:E1 in H; destruct (_ || _) eqn:E2 in H;
    repeat match goal with
      | H : context [N.eqb ?a ?b] |- _ => destruct (N.eqb_spec a b)
      end; bool_to_prop; lia.
Qed.

Lemma folded_stretch_exact (m kw : jsstring) :
  Forall2 (fun x c => cmatch true x c = true) m kw ->
  Forall (fun x => x < 128 /\ (x < 0x41 \/ 0x5A < x)) m ->
  forallb is_small_or_space kw = true ->
  m = kw.
Proof.
  induction 1 as [|x c m kw Hxc _ IH]; intros Fm Fk; [reflexivity|].
  inversion Fm as [|? ? [Hx Hn] Fm']; subst.
  simpl in Fk. apply andb_true_iff in Fk. destruct Fk as [Hc Fk].
  f_equal; [apply folded_match_exact; assumption | apply IH; assumption].
Qed.

(** The two directions in which the specification's occurrence is found. *)
Lemma keyword_here_found (mid suf : jsstring) :
  head_is_word suf = false ->
  keyword_here (map latin1_lower mid) (mid ++ suf) = true.
Proof.
  intros Hs. induction mid as [|x mid IH]; simpl.
  - rewrite Hs. reflexivity.
  - rewrite N.eqb_refl. exact IH.
Qed.

Lemma keyword_from_found (kw rest pre : jsstring) :
  forall prev,
    head_is_word (rev pre ++ prev) = false ->
    keyword_here kw rest = true ->
    keyword_from kw prev (pre ++ rest) = true.
Proof.
  induction pre as [|x pre IH]; intros prev Hp Hk.
  - simpl in Hp. destruct rest; simpl; rewrite Hp, Hk; reflexivity.
  - change (keyword_from kw prev ((x :: pre) ++ rest))
      with ((negb (head_is_word prev) && keyword_here kw (x :: pre ++ rest))
            || keyword_from kw (x :: prev) (pre ++ rest)).
    rewrite IH; [apply orb_true_r | | exact Hk].
    simpl in Hp. rewrite <- app_assoc in Hp. exact Hp.
Qed.

(** On plain text no character class of the detector matches. *)
Lemma plain_no_class (t : jsstring) (cs : list code_unit) :
  Forall (fun c => c < 128) t ->
  forallb is_accented cs = true ->
  rtest (RClass cs) t = false.
Proof.
  intros Ft Fc. destruct (rtest (RClass cs) t) eqn:E; [|reflexivity].
  apply test_class_true in E. destruct E as [x [c [Hx [Hc Hm]]]].
  rewrite Forall_forall in Ft. rewrite forallb_forall in Fc.
  rewrite (folded_no_accent _ _ (Ft _ Hx) (Fc _ Hc)) in Hm. discriminate.
Qed.

(** On plain text a keyword test that succeeds has found a whole-word
    occurrence of one of its keywords in the text. *)
Lemma plain_words_found (text k0 : jsstring) (ks : list jsstring) :
  plain_ascii text ->
  forallb keyword_shape (k0 :: ks) = true ->
  rtest (words k0 ks) (lower (trim text)) = true ->
  exists kw, In kw (k0 :: ks) /\ whole_word_occurrence kw text = true.
Proof.
  intros Hplain Hshape H.
  destruct (trim_split text) as [ws1 [ws2 [Et [F1 F2]]]].
  assert (Ht : Forall (fun c => is_ascii_alnum c = true \/ is_ascii_space c = true)
                 (trim text)).
  { unfold plain_ascii in Hplain. rewrite Et in Hplain.
    apply Forall_app in Hplain. destruct Hplain as [_ Hplain].
    apply Forall_app in Hplain. tauto. }
  assert (Hlow : lower (trim text) = map latin1_lower (trim text)).
  { apply lower_from_latin1. eapply Forall_impl; [|exact Ht].
    intros c Hc. unfold is_ascii_alnum, is_ascii_space in Hc. bool_lia. }
  rewrite Hlow in H. apply test_words_true in H.
  destruct H as [kw [a [m [b [Hkw [E [F [B1 B2]]]]]]]].
  exists kw. split; [exact Hkw|].
  assert (Fm : Forall (fun x => x < 128 /\ (x < 0x41 \/ 0x5A < x)) m).
  { apply Forall_forall. intros x Hx.
    assert (Hin : In x (map latin1_lower (trim text))).
    { rewrite E. apply in_or_app. right. apply in_or_app. left. exact Hx. }
    apply in_map_iff in Hin. destruct Hin as [d [<- Hd]].
    rewrite Forall_forall in Ht. apply plain_unit_folded. apply Ht. exact Hd. }
  rewrite forallb_forall in Hshape. specialize (Hshape _ Hkw).
  unfold keyword_shape in Hshape. apply orb_true_iff in Hshape.
  destruct Hshape as [Hacc|Hplainkw].
  - exfalso. apply existsb_exists in Hacc. destruct Hacc as [c [Hc Hacc]].
    destruct (@Forall2_in_right _ _ _ _ _ _ F Hc) as [x [Hx Hm]].
    rewrite Forall_forall in Fm. destruct (Fm _ Hx) as [Hx128 _].
    rewrite (folded_no_accent _ _ Hx128 Hacc) in Hm. discriminate.
  - apply andb_true_iff in Hplainkw. destruct Hplainkw as [Hplainkw Hlast].
    apply andb_true_iff in Hplainkw. destruct Hplainkw as [Hletters Hfirst].
    assert (Em : m = kw) by (apply folded_stretch_exact; assumption).
    subst m.
    rewrite (head_is_word_app _ b Hfirst) in B1.
    rewrite <- rev_app_distr in B2.
    rewrite rev_app_distr, (head_is_word_app _ (rev a) Hlast) in B2.
    destruct (head_is_word (rev a)) eqn:Ba; [discriminate|].
    destruct (head_is_word b) eqn:Bb; [discriminate|].
    apply map_eq_app in E.
    destruct E as [ta [t' [Et' [Ea E]]]].
    apply map_eq_app in E. destruct E as [tm [tb [Et'' [Em Eb]]]].
    subst a b kw t'.
    rewrite <- map_rev, head_is_word_lower in Ba.
    rewrite head_is_word_lower in Bb.
    unfold whole_word_occurrence.
    rewrite Et, Et'.
    replace (ws1 ++ (ta ++ tm ++ tb) ++ ws2)
      with ((ws1 ++ ta) ++ tm ++ (tb ++ ws2))
      by (rewrite <- !app_assoc; reflexivity).
    apply keyword_from_found.
    + rewrite app_nil_r, rev_app_distr.
      apply head_is_word_app_ws; [exact Ba | apply Forall_rev; exact F1].
    + apply keyword_here_found.
      apply head_is_word_app_ws; [exact Bb | exact F2].
Qed.

(** C8. A text of ASCII letters, digits and white space in which no keyword
    of rules 1 to 4 occurs as a whole word, in any letter case, is English. *)
Theorem plain_text_is_english (text : jsstring) :
  plain_ascii text ->
  (forall kw, In kw listed_keywords -> whole_word_occurrence kw text = false) ->
  detect text = English.
Proof.
  intros Hplain Hnone.
  assert (Ft : Forall (fun c => c < 128) (trim text)).
  { apply Forall_forall. intros x Hx. apply in_trim in Hx.
    unfold plain_ascii in Hplain. rewrite Forall_forall in Hplain.
    specialize (Hplain _ Hx). unfold is_ascii_alnum, is_ascii_space in Hplain.
    bool_lia. }
  assert (Hwords : forall k0 ks,
             forallb keyword_shape (k0 :: ks) = true ->
             incl (k0 :: ks) listed_keywords ->
             rtest (words k0 ks) (lower (trim text)) = false).
  { intros k0 ks Hshape Hincl.
    destruct (rtest (words k0 ks) (lower (trim text))) eqn:E; [|reflexivity].
    destruct (plain_words_found _ _ _ Hplain Hshape E) as [kw [Hkw Hocc]].
    rewrite (Hnone kw (Hincl _ Hkw)) in Hocc. discriminate. }
  unfold detectLangFromText. cbv zeta.
  unfold pt_chars, es_chars, it_chars, fr_chars.
  rewrite !(plain_no_class _ _ Ft) by reflexivity.
  unfold pt_words, es_words, it_words, fr_words.
  rewrite !Hwords; try reflexivity;
    intros kw Hkw; simpl in Hkw; unfold listed_keywords; simpl; tauto.
Qed.

End PlainText.

End DetectorFacts.

(** * The properties at work on examples *)

Lemma sample_canon_ext_beyond (c : code_unit) : 256 <= c -> 256 <= sample_canon_ext c.
Proof.
  intros H. unfold sample_canon_ext.
  destruct ((0x3B1 <=? c) && (c <=? 0x3C1)) eqn:E1; [bool_lia|].
  destruct ((0x430 <=? c) && (c <=? 0x44F)) eqn:E2; [bool_lia|]. exact H.
Qed.

Lemma sample_lower_ext_latin1 (before : jsstring) (c : code_unit) (after : jsstring)
    (x : code_unit) :
  256 <= c -> In x (sample_lower_ext before c after) -> x < 256 ->
  In x [0x69; 0x6B; 0xDF; 0xE5; 0xFF].
Proof.
  intros Hc Hin Hx. unfold sample_lower_ext in Hin.
  repeat match type of Hin with
    | context [N.eqb ?a ?b] => destruct (N.eqb_spec a b)
    end;
    try (simpl in *; intuition (subst; lia)).
  destruct ((0x391 <=? c) && (c <=? 0x3A1)) eqn:E1.
  { simpl in Hin. bool_to_prop. intuition lia. }
  destruct ((0x410 <=? c) && (c <=? 0x42F)) eqn:E2.
  { simpl in Hin. bool_to_prop. intuition lia. }
  simpl in Hin. intuition lia.
Qed.

Lemma plain_ascii_check (text : jsstring) :
  forallb (fun c => is_ascii_alnum c || is_ascii_space c) text = true ->
  plain_ascii text.
Proof.
  intros H. apply Forall_forall. intros c Hc.
  rewrite forallb_forall in H. apply orb_true_iff. apply H. exact Hc.
Qed.

Lemma no_occurrence_check (text : jsstring) :
  forallb (fun kw => negb (whole_word_occurrence kw text)) listed_keywords = true ->
  forall kw, In kw listed_keywords -> whole_word_occurrence kw text = false.
Proof.
  intros H kw Hkw. rewrite forallb_forall in H.
  apply negb_true_iff. apply H. exact Hkw.
Qed.

(** The text "Pourquoi ça?" holds a French keyword and a c with cedilla. *)
Lemma cedilla_is_portuguese_witness :
  (In 0xE7 (js "Pourquoi ça?") \/ In 0xC7 (js "Pourquoi ça?"))
  /\ whole_word_occurrence (js "pourquoi") (js "Pourquoi ça?") = true
  /\ sample_detect (js "Pourquoi ça?") = Portuguese.
Proof.
  split; [left; vm_compute; tauto|].
  split; [reflexivity|].
  apply (cedilla_is_portuguese sample_lower_ext sample_canon_ext).
  left; vm_compute; tauto.
Defined.

Lemma plain_text_is_english_witness :
  plain_ascii (js "Hello world 42")
  /\ sample_detect (js "Hello world 42") = English.
Proof.
  split.
  - apply plain_ascii_check. reflexivity.
  - apply (plain_text_is_english sample_lower_ext sample_canon_ext).
    + apply plain_ascii_check. reflexivity.
    + apply no_occurrence_check. reflexivity.
Defined.

Lemma spanish_needs_spanish_mark_witness :
  sample_detect (js "¿Hola?") = Spanish
  /\ (In 0xF1 (js "¿Hola?") \/ In 0xD1 (js "¿Hola?")
      \/ In 0xA1 (js "¿Hola?") \/ In 0xBF (js "¿Hola?")).
Proof.
  split; [reflexivity|].
  apply (proj2 (spanish_needs_spanish_mark sample_lower_ext sample_canon_ext
                  sample_canon_ext_beyond sample_lower_ext_latin1 (js "¿Hola?"))).
  reflexivity.
Defined.

(** The text "AÑO" is Spanish by its capital n with tilde; it holds neither
    the small letter nor an inverted mark. *)
Lemma capital_ntilde_is_spanish :
  sample_detect (js "AÑO") = Spanish
  /\ ~ (In 0xF1 (js "AÑO") \/ In 0xA1 (js "AÑO") \/ In 0xBF (js "AÑO")).
Proof.
  split; [reflexivity|].
  vm_compute. intros [H|[H|H]];
    repeat (destruct H as [H|H]; [discriminate|]); exact H.
Qed.

Lemma empty_message_rejected_witness :
  trim (js "   ") = []
  /\ sample_ask (upstream_answering VNull) (js "   ")
     = ([Send {| status := 400;
                 body := VObject [(js "error", VString (js "Empty message"))] |}],
        Normal tt)
  /\ sample_ask (upstream_answering VNull) (js "")
     = ([Send {| status := 400;
                 body := VObject [(js "error", VString (js "Empty message"))] |}],
        Normal tt).
Proof.
  split; [reflexivity|]. split.
  - apply (proj1 (empty_message_rejected sample_lower_ext sample_canon_ext None None
                    (upstream_answering VNull) sample_TypeError sample_String
                    sample_stringify
                    (VObject [(js "message", VString (js "   "))])
                    (or_intror (or_intror
                       (ex_intro _ (js "   ") (conj eq_refl eq_refl)))))).
  - apply (proj1 (empty_message_rejected sample_lower_ext sample_canon_ext None None
                    (upstream_answering VNull) sample_TypeError sample_String
                    sample_stringify
                    (VObject [(js "message", VString (js ""))])
                    (or_intror (or_intror
                       (ex_intro _ (js "") (conj eq_refl eq_refl)))))).
Defined.

(** A response whose only choice carries a message without content. *)
Lemma missing_content_is_502_witness :
  sample_ask
    (upstream_answering
       (VObject [(js "choices",
                  VArray [VObject [(js "message",
                                    VObject [(js "role", VString (js "assistant"))])]])]))
    (js "Hello")
  = ([Call (sample_args (js "Hello"));
      Send {| status := 502;
              body := VObject [(js "error", VString (js "No answer from model"))] |}],
     Normal tt).
Proof.
  apply (missing_content_is_502 sample_lower_ext sample_canon_ext None None
           (upstream_answering
              (VObject [(js "choices",
                         VArray [VObject [(js "message",
                                           VObject [(js "role", VString (js "assistant"))])]])]))
           sample_TypeError sample_String sample_stringify
           (js "Hello") _ _ _ _ _ _
           ltac:(discriminate) eq_refl eq_refl eq_refl eq_refl eq_refl
           (or_introl eq_refl)).
Defined.

(** A failure that carries a message and no payload. *)
Lemma upstream_failure_is_500_witness :
  sample_ask
    (upstream_failing (VObject [(js "message", VString (js "Connection error."))]))
    (js "Hello")
  = ([Call (sample_args (js "Hello"));
      ConsoleError [VString (js "LLM error:"); VString (js "Connection error.")];
      Send {| status := 500;
              body := VObject [(js "error", VString (js "Connection error."))] |}],
     Normal tt).
Proof.
  apply (upstream_failure_is_500 sample_lower_ext sample_canon_ext None None
           (upstream_failing (VObject [(js "message", VString (js "Connection error."))]))
           sample_TypeError sample_String sample_stringify
           (js "Hello") _ ltac:(discriminate) eq_refl).
Defined.

(** A response without choices. *)
Lemma no_choice_is_502_witness :
  sample_ask (upstream_answering (VObject [(js "id", VString (js "chatcmpl-1"))]))
    (js "Hello")
  = ([Call (sample_args (js "Hello"));
      Send {| status := 502;
              body := VObject [(js "error", VString (js "No answer from model"))] |}],
     Normal tt).
Proof.
  apply (proj1 (no_choice_is_502 sample_lower_ext sample_canon_ext None None
                  (upstream_answering (VObject [(js "id", VString (js "chatcmpl-1"))]))
                  sample_TypeError sample_String sample_stringify
                  (js "Hello") _ ltac:(discriminate) eq_refl eq_refl
                  (or_introl eq_refl))).
Defined.

(** * Further properties of the detector *)

Lemma trimStart_ws_prefix (w s : jsstring) :
  Forall (fun c => isWhiteSpace c = true) w -> trimStart (w ++ s) = trimStart s.
Proof.
  induction 1 as [|c w Hc _ IH]; simpl; [reflexivity|]. rewrite Hc. exact IH.
Qed.

Lemma trimStart_nil_iff (s : jsstring) :
  trimStart s = [] <-> Forall (fun c => isWhiteSpace c = true) s.
Proof.
  induction s as [|c s IH]; simpl.
  - split; [constructor | reflexivity].
  - destruct (isWhiteSpace c) eqn:Hc.
    + rewrite IH. split; [constructor; assumption | inversion 1; assumption].
    + split; [discriminate | inversion 1; congruence].
Qed.

Lemma trimStart_app (s r : jsstring) :
  trimStart s <> [] -> trimStart (s ++ r) = trimStart s ++ r.
Proof.
  induction s as [|c s IH]; simpl; [congruence|].
  destruct (isWhiteSpace c); [exact IH | reflexivity].
Qed.

Lemma trimEnd_ws_suffix (s w : jsstring) :
  Forall (fun c => isWhiteSpace c = true) w -> trimEnd (s ++ w) = trimEnd s.
Proof.
  intros F. unfold trimEnd. rewrite rev_app_distr, trimStart_ws_prefix; [reflexivity|].
  apply Forall_rev. exact F.
Qed.

(** White space around a text is dropped by [trim], whatever the text. *)
Lemma trim_padding (w1 s w2 : jsstring) :
  Forall (fun c => isWhiteSpace c = true) w1 ->
  Forall (fun c => isWhiteSpace c = true) w2 ->
  trim (w1 ++ s ++ w2) = trim s.
Proof.
  intros F1 F2. unfold trim. rewrite (trimStart_ws_prefix w1 _ F1).
  destruct (trimStart s) as [|c u] eqn:E.
  - apply trimStart_nil_iff in E.
    assert (E' : trimStart (s ++ w2) = [])
      by (apply trimStart_nil_iff, Forall_app; split; assumption).
    rewrite E'. reflexivity.
  - rewrite trimStart_app by congruence. rewrite E.
    apply trimEnd_ws_suffix. exact F2.
Qed.

Lemma trim_idempotent (s : jsstring) : trim (trim s) = trim s.
Proof.
  destruct (trim_split s) as [ws1 [ws2 [E [F1 F2]]]].
  rewrite E at 2. symmetry. apply trim_padding; assumption.
Qed.

Lemma trim_blank (s : jsstring) :
  Forall (fun c => isWhiteSpace c = true) s -> trim s = [].
Proof.
  intros F. unfold trim.
  assert (E : trimStart s = []) by (apply trimStart_nil_iff; exact F).
  rewrite E. reflexivity.
Qed.

Section MatcherComplete.

Variable canon_ext : code_unit -> code_unit.

Local Abbreviation cmatch := (char_match canon_ext).
Local Abbreviation rm := (rmatch canon_ext).

Lemma rmatch_lit_complete (i : bool) (kw : jsstring) :
  forall m prev rest k,
    Forall2 (fun x c => cmatch i x c = true) m kw ->
    k (rev m ++ prev) rest = true ->
    rm i (lit kw) prev (m ++ rest) k = true.
Proof.
  induction kw as [|c kw IH]; intros m prev rest k F K.
  - inversion F; subst. exact K.
  - inversion F as [|x ? m' ? Hx F']; subst. simpl.
    rewrite Hx. simpl. apply IH; [exact F'|].
    simpl in K. rewrite <- app_assoc in K. exact K.
Qed.

Lemma rmatch_alts_complete (i : bool) (ks : list jsstring) :
  forall k0 kw prev rest k,
    In kw (k0 :: ks) ->
    rm i (lit kw) prev rest k = true ->
    rm i (alts k0 ks) prev rest k = true.
Proof.
  induction ks as [|k1 ks IH]; intros k0 kw prev rest k Hin H.
  - destruct Hin as [<-|[]]. exact H.
  - change (rm i (lit k0) prev rest k || rm i (alts k1 ks) prev rest k = true).
    apply orb_true_iff. destruct Hin as [<-|Hin].
    + left. exact H.
    + right. apply (IH _ _ _ _ _ Hin H).
Qed.

Lemma search_complete (i : bool) (r : regex) (a : jsstring) :
  forall prev b,
    rm i r (rev a ++ prev) b (fun _ _ => true) = true ->
    search canon_ext i r prev (a ++ b) = true.
Proof.
  induction a as [|x a IH]; intros prev b H.
  - simpl in H. destruct b; simpl; rewrite H; reflexivity.
  - change (rm i r prev (x :: a ++ b) (fun _ _ => true)
            || search canon_ext i r (x :: prev) (a ++ b) = true).
    apply orb_true_iff. right. apply IH.
    simpl in H. rewrite <- app_assoc in H. exact H.
Qed.

(** The converse of [test_words_true]: a stretch that matches a keyword
    between two word boundaries makes the test succeed. *)
Lemma test_words_complete (i : bool) (k0 : jsstring) (ks : list jsstring)
    (kw a m b : jsstring) :
  In kw (k0 :: ks) ->
  Forall2 (fun x c => cmatch i x c = true) m kw ->
  xorb (head_is_word (rev a)) (head_is_word (m ++ b)) = true ->
  xorb (head_is_word (rev m ++ rev a)) (head_is_word b) = true ->
  test canon_ext i (words k0 ks) (a ++ m ++ b) = true.
Proof.
  intros Hin F B1 B2. unfold test. apply search_complete.
  rewrite app_nil_r. unfold words. simpl. rewrite B1. simpl.
  apply (rmatch_alts_complete i ks k0 kw _ _ _ Hin).
  apply rmatch_lit_complete; [exact F|].
  simpl. rewrite B2. reflexivity.
Qed.

(** A keyword shared by two tests: when the later test finds it, so does
    the earlier one. *)
Lemma test_words_shared (i : bool) (k0 k0' : jsstring) (ks ks' : list jsstring)
    (s : jsstring) :
  test canon_ext i (words k0 ks) s = true ->
  exists kw,
    In kw (k0 :: ks)
    /\ (In kw (k0' :: ks') -> test canon_ext i (words k0' ks') s = true).
Proof.
  intros H. apply test_words_true in H.
  destruct H as [kw [a [m [b [Hkw [E [F [B1 B2]]]]]]]].
  exists kw. split; [exact Hkw|]. intros Hkw'. rewrite E.
  apply (test_words_complete i k0' ks' kw a m b Hkw' F B1 B2).
Qed.

End MatcherComplete.

Section DetectorMore.

Variable lower_ext : jsstring -> code_unit -> jsstring -> jsstring.
Variable canon_ext : code_unit -> code_unit.

Local Abbreviation detect := (detectLangFromText lower_ext canon_ext).
Local Abbreviation cmatch := (char_match canon_ext).
Local Abbreviation lower := (toLowerCase lower_ext).
Local Abbreviation rtest := (test canon_ext true).

(** X1. White space before and after a text does not change its label. *)
Theorem detect_ignores_padding (w1 text w2 : jsstring) :
  Forall (fun c => isWhiteSpace c = true) w1 ->
  Forall (fun c => isWhiteSpace c = true) w2 ->
  detect (w1 ++ text ++ w2) = detect text.
Proof.
  intros F1 F2. unfold detectLangFromText.
  rewrite (trim_padding w1 text w2 F1 F2). reflexivity.
Qed.

(** X2. A text made of white space only, the empty text included, is
    English. *)
Theorem blank_is_english (text : jsstring) :
  Forall (fun c => isWhiteSpace c = true) text -> detect text = English.
Proof.
  intros F. unfold detectLangFromText. rewrite (trim_blank text F). reflexivity.
Qed.

(** A unit that matches a member of a class makes the class test succeed. *)
Lemma class_hit (cs : list code_unit) (t : jsstring) (x c : code_unit) :
  In x t -> In c cs -> cmatch true x c = true -> rtest (RClass cs) t = true.
Proof.
  intros Hx Hc Hm. apply test_class_true. exists x, c. auto.
Qed.

(** X3. A text that contains one of the twelve accented letters of the
    first rule, small or capital, is Portuguese. *)
Theorem pt_letter_is_portuguese (text : jsstring) (c : code_unit) :
  In c (js "ãõáéíóúâêôàç") ->
  In c text \/ In (c - 32) text ->
  detect text = Portuguese.
Proof.
  intros Hc Hin. unfold detectLangFromText.
  assert (T : rtest pt_chars (trim text) = true).
  { unfold pt_chars. vm_compute in Hc.
    repeat (destruct Hc as [<-|Hc];
      [ destruct Hin as [Hin|Hin];
        [ match type of Hin with
          | In ?n text =>
              apply (class_hit _ _ n n (in_trim_keeps _ _ Hin eq_refl));
              [vm_compute; tauto | reflexivity]
          end
        | match type of Hin with
          | In (?n - 32) text =>
              apply (class_hit _ _ (n - 32) n (in_trim_keeps _ _ Hin eq_refl));
              [vm_compute; tauto | reflexivity]
          end ] |]).
    contradiction. }
  cbv zeta. rewrite T. reflexivity.
Qed.


End DetectorMore.

Section LaterRules.

Variable lower_ext : jsstring -> code_unit -> jsstring -> jsstring.
Variable canon_ext : code_unit -> code_unit.

Local Abbreviation detect := (detectLangFromText lower_ext canon_ext).
Local Abbreviation cmatch := (char_match canon_ext).
Local Abbreviation lower := (toLowerCase lower_ext).
Local Abbreviation rtest := (test canon_ext true).

(** The two facts of the Unicode case tables used for the Spanish rule. *)
Hypothesis canon_ext_beyond : forall c, 256 <= c -> 256 <= canon_ext c.
Hypothesis lower_ext_latin1 :
  forall before c after x,
    256 <= c -> In x (lower_ext before c after) -> x < 256 ->
    In x [0x69; 0x6B; 0xDF; 0xE5; 0xFF].

(** What the detector's chain of tests looks like when the answer is the
    third or the fourth label. *)
Lemma detect_italian_inv (text : jsstring) :
  detect text = Italian ->
  rtest pt_chars (trim text) = false
  /\ rtest pt_words (lower (trim text)) = false
  /\ (rtest it_chars (trim text) = true \/ rtest it_words (lower (trim text)) = true).
Proof.
  unfold detectLangFromText. cbv zeta. intros H.
  destruct (rtest pt_chars (trim text)) eqn:E1; [discriminate|].
  destruct (rtest pt_words (lower (trim text))) eqn:E2; [discriminate|].
  cbn [orb] in H.
  destruct (_ || _) in H; [discriminate|].
  destruct (rtest it_chars (trim text)) eqn:E3; [auto|].
  destruct (rtest it_words (lower (trim text))) eqn:E4; [auto|].
  cbn [orb] in H. destruct (_ || _) in H; discriminate.
Qed.

Lemma detect_french_inv (text : jsstring) :
  detect text = French ->
  rtest pt_chars (trim text) = false
  /\ rtest it_chars (trim text) = false
  /\ (rtest fr_chars (trim text) = true \/ rtest fr_words (lower (trim text)) = true).
Proof.
  unfold detectLangFromText. cbv zeta. intros H.
  destruct (rtest pt_chars (trim text)) eqn:E1; [discriminate|].
  destruct (rtest pt_words (lower (trim text))) eqn:E2; [discriminate|].
  cbn [orb] in H.
  destruct (_ || _) in H; [discriminate|].
  destruct (rtest it_chars (trim text)) eqn:E3; [discriminate|].
  destruct (rtest it_words (lower (trim text))) eqn:E4; [discriminate|].
  cbn [orb] in H.
  destruct (rtest fr_chars (trim text)) eqn:E5; [auto|].
  destruct (rtest fr_words (lower (trim text))) eqn:E6; [auto|].
  discriminate.
Qed.

(** X5. Of the eleven accented letters of the French rule only the u with
    circumflex can decide: a text that is French without a French keyword
    contains that letter, small or capital.  The other ten letters belong to
    the Portuguese or to the Italian class, which are tried first. *)
Theorem french_letter_is_u_circumflex (text : jsstring) :
  detect text = French ->
  rtest fr_words (lower (trim text)) = true \/ In 0xFB text \/ In 0xDB text.
Proof using canon_ext_beyond.
  intros H. apply detect_french_inv in H. destruct H as [Ept [Eit [H|H]]]; [|auto].
  right. unfold fr_chars in H. apply test_class_true in H.
  destruct H as [x [c [Hx [Hc Hm]]]].
  assert (Hpt : In c (js "ãõáéíóúâêôàç") -> False).
  { intros Hc'. unfold pt_chars in Ept.
    rewrite (proj2 (test_class_true canon_ext true _ _)) in Ept; [discriminate|].
    exists x, c. auto. }
  assert (Hit : In c (js "àèéìòóùçîïë") -> False).
  { intros Hc'. unfold it_chars in Eit.
    rewrite (proj2 (test_class_true canon_ext true _ _)) in Eit; [discriminate|].
    exists x, c. auto. }
  vm_compute in Hc, Hpt, Hit.
  assert (Ec : c = 0xFB) by (intuition congruence). subst c.
  apply (match_small_letter canon_ext canon_ext_beyond) in Hm; [|lia|lia|lia].
  apply in_trim in Hx.
  destruct Hm as [->|Hm]; [left; exact Hx|].
  assert (x = 0xDB) by lia. subst x. right; exact Hx.
Qed.

(** An acute vowel in the lower-case form comes from one in the text. *)
Lemma acute_in_lower_fires_pt (t : jsstring) (x c : code_unit) :
  In c [0xE1; 0xE9; 0xED; 0xF3] ->
  In x (lower t) ->
  cmatch true x c = true ->
  rtest pt_chars t = true.
Proof using canon_ext_beyond lower_ext_latin1.
  intros Hacute Hlow Hm.
  assert (Hxc : x = c \/ x + 32 = c).
  { apply (match_small_letter canon_ext canon_ext_beyond); [| | |exact Hm];
      simpl in Hacute; intuition (subst; lia). }
  apply lower_from_in in Hlow. destruct Hlow as [d [Hd [[L Ex]|[L [bef [aft Ex]]]]]].
  - apply (acute_vowel_fires_pt canon_ext t d c).
    + simpl in *. tauto.
    + subst x. unfold latin1_lower in Hxc.
      destruct (_ || _) eqn:Ec in Hxc.
      * simpl in Hacute. bool_to_prop. lia.
      * tauto.
    + exact Hd.
  - exfalso.
    assert (Hx256 : x < 256) by (simpl in Hacute; intuition (subst; lia)).
    pose proof (@lower_ext_latin1 bef d aft x L Ex Hx256) as Hsmall.
    simpl in Hsmall, Hacute. intuition (subst; lia).
Qed.

(** X6. The Italian answer is decided by one of the letters e, i, o, u with
    grave accent, i with circumflex, i or e with diaeresis (small or capital),
    or by one of the keywords "come" and "articoli".  The other four letters
    of the Italian class and the keywords "perché" and "quando" never decide:
    the first rule answers before. *)
Theorem italian_needs_own_letter_or_keyword (text : jsstring) :
  detect text = Italian ->
  (exists c, In c [0xE8; 0xEC; 0xF2; 0xF9; 0xEE; 0xEF; 0xEB]
             /\ (In c text \/ In (c - 32) text))
  \/ rtest (words (js "come") [js "articoli"]) (lower (trim text)) = true.
Proof using canon_ext_beyond lower_ext_latin1.
  intros H. apply detect_italian_inv in H. destruct H as [Ept [Eptw [H|H]]].
  - left. unfold it_chars in H. apply test_class_true in H.
    destruct H as [x [c [Hx [Hc Hm]]]].
    assert (Hpt : In c (js "ãõáéíóúâêôàç") -> False).
    { intros Hc'. unfold pt_chars in Ept.
      rewrite (proj2 (test_class_true canon_ext true _ _)) in Ept; [discriminate|].
      exists x, c. auto. }
    vm_compute in Hc, Hpt.
    assert (Hown : In c [0xE8; 0xEC; 0xF2; 0xF9; 0xEE; 0xEF; 0xEB])
      by (simpl; intuition congruence).
    exists c. split; [exact Hown|].
    assert (Hb : 0xE0 <= c /\ c <= 0xFE /\ c <> 0xF7).
    { clear - Hown. simpl in Hown.
      repeat (destruct Hown as [<-|Hown]; [repeat split; lia|]). contradiction. }
    apply (match_small_letter canon_ext canon_ext_beyond) in Hm; [|tauto ..].
    apply in_trim in Hx.
    destruct Hm as [->|Hm]; [left; exact Hx|].
    right. replace (c - 32) with x by lia. exact Hx.
  - right. unfold it_words in H. apply test_words_true in H.
    destruct H as [kw [a [m [b [Hkw [E [F [B1 B2]]]]]]]].
    destruct Hkw as [<-|[<-|Hkw]].
    + exfalso.
      destruct (@Forall2_in_right _ _ _ _ _ 0xE9 F) as [x [Hx Hm]];
        [vm_compute; tauto|].
      rewrite (acute_in_lower_fires_pt (trim text) x 0xE9) in Ept;
        [discriminate | simpl; tauto | | exact Hm].
      rewrite E. apply in_or_app. right. apply in_or_app. left. exact Hx.
    + exfalso. unfold pt_words in Eptw. rewrite E in Eptw.
      rewrite (test_words_complete canon_ext true _ _ (js "quando") a m b) in Eptw;
        [discriminate | simpl; tauto | exact F | exact B1 | exact B2].
    + rewrite E.
      apply (test_words_complete canon_ext true _ _ kw a m b);
        [exact Hkw | exact F | exact B1 | exact B2].
Qed.

End LaterRules.

(** ** Whole-word occurrences and white space *)

Lemma keyword_here_sound (kw : jsstring) :
  forall rest,
    keyword_here kw rest = true ->
    exists mid suf,
      rest = mid ++ suf /\ map latin1_lower mid = kw /\ head_is_word suf = false.
Proof.
  induction kw as [|c kw IH]; intros rest H; simpl in H.
  - exists [], rest. apply negb_true_iff in H. auto.
  - destruct rest as [|x rest]; [discriminate|].
    apply andb_true_iff in H. destruct H as [Hx H]. apply N.eqb_eq in Hx.
    destruct (IH _ H) as [mid [suf [E [Em Hs]]]].
    exists (x :: mid), suf. simpl. repeat split; congruence.
Qed.

Lemma keyword_from_sound (kw rest : jsstring) :
  forall prev,
    keyword_from kw prev rest = true ->
    exists pre rest',
      rest = pre ++ rest'
      /\ head_is_word (rev pre ++ prev) = false
      /\ keyword_here kw rest' = true.
Proof.
  induction rest as [|x rest IH]; intros prev H; simpl in H.
  - rewrite orb_false_r in H. apply andb_true_iff in H. destruct H as [Hp Hk].
    exists [], []. apply negb_true_iff in Hp. auto.
  - apply orb_true_iff in H. destruct H as [H|H].
    + apply andb_true_iff in H. destruct H as [Hp Hk].
      exists [], (x :: rest). apply negb_true_iff in Hp. auto.
    + destruct (IH _ H) as [pre [rest' [E [Hp Hk]]]].
      exists (x :: pre), rest'. simpl. rewrite <- app_assoc.
      repeat split; [congruence | exact Hp | exact Hk].
Qed.

Lemma keyword_from_prev (kw rest : jsstring) :
  forall p1 p2,
    head_is_word p1 = head_is_word p2 ->
    keyword_from kw p1 rest = keyword_from kw p2 rest.
Proof.
  induction rest as [|x rest IH]; intros p1 p2 H; simpl; rewrite H.
  - reflexivity.
  - f_equal. apply IH. reflexivity.
Qed.

Lemma white_space_lower (c : code_unit) :
  isWhiteSpace c = true -> latin1_lower c = c.
Proof.
  intros H. unfold latin1_lower. destruct (_ || _) eqn:E; [|reflexivity].
  exfalso. unfold isWhiteSpace in H. bool_lia.
Qed.

(** A keyword with a word character in it is not found in white space. *)
Lemma keyword_here_all_ws (kw : jsstring) :
  forall w,
    Forall (fun c => isWhiteSpace c = true) w ->
    existsb isWordChar kw = true ->
    keyword_here kw w = false.
Proof.
  induction kw as [|c kw IH]; intros w F H; [discriminate|].
  destruct F as [|x w Hx F]; [reflexivity|]. simpl.
  simpl in H. apply orb_true_iff in H. destruct H as [H|H].
  - rewrite (white_space_lower _ Hx).
    destruct (N.eqb_spec x c) as [->|]; [|reflexivity].
    rewrite (white_space_not_word _ Hx) in H. discriminate.
  - rewrite (IH _ F H). apply andb_false_r.
Qed.

Lemma keyword_from_all_ws (kw w : jsstring) :
  forall prev,
    Forall (fun c => isWhiteSpace c = true) w ->
    existsb isWordChar kw = true ->
    keyword_from kw prev w = false.
Proof.
  induction w as [|x w IH]; intros prev F H.
  - simpl. destruct kw; [discriminate|]. simpl. rewrite andb_false_r. reflexivity.
  - simpl. rewrite (keyword_here_all_ws kw (x :: w) F H), andb_false_r. simpl.
    inversion F; subst. apply IH; assumption.
Qed.

Lemma head_word_exists (l : jsstring) :
  head_is_word (rev l) = true -> existsb isWordChar l = true.
Proof.
  intros H. destruct (rev l) as [|x r] eqn:E; [discriminate|].
  apply existsb_exists. exists x. split; [|exact H].
  apply in_rev. rewrite E. left; reflexivity.
Qed.

Lemma keyword_here_ws_tail (kw w : jsstring) :
  Forall (fun c => isWhiteSpace c = true) w ->
  kw = [] \/ head_is_word (rev kw) = true ->
  forall s, keyword_here kw (s ++ w) = keyword_here kw s.
Proof.
  intros F. induction kw as [|c kw IH]; intros Hkw s.
  - simpl. destruct s as [|x s]; [|reflexivity]. simpl.
    destruct F as [|x w Hx _]; [reflexivity|].
    simpl. rewrite (white_space_not_word _ Hx). reflexivity.
  - destruct Hkw as [Hkw|Hkw]; [discriminate|].
    destruct s as [|x s].
    + simpl app. rewrite (keyword_here_all_ws _ _ F (head_word_exists _ Hkw)).
      reflexivity.
    + simpl. f_equal. apply IH.
      destruct kw as [|c' kw']; [left; reflexivity|]. right.
      simpl in Hkw. simpl.
      destruct (rev kw' ++ [c']) as [|y r] eqn:E.
      * destruct (rev kw'); discriminate.
      * exact Hkw.
Qed.

Lemma keyword_from_ws_suffix (kw w s : jsstring) :
  Forall (fun c => isWhiteSpace c = true) w ->
  head_is_word (rev kw) = true ->
  forall prev, keyword_from kw prev (s ++ w) = keyword_from kw prev s.
Proof.
  intros F Hkw. induction s as [|x s IH]; intros prev.
  - simpl app. rewrite (keyword_from_all_ws kw w prev F (head_word_exists _ Hkw)).
    simpl. destruct kw; [discriminate|]. simpl. rewrite andb_false_r. reflexivity.
  - change (keyword_from kw prev ((x :: s) ++ w))
      with ((negb (head_is_word prev) && keyword_here kw ((x :: s) ++ w))
            || keyword_from kw (x :: prev) (s ++ w)).
    rewrite (keyword_here_ws_tail kw w F (or_intror Hkw)), IH. reflexivity.
Qed.

Lemma keyword_from_ws_prefix (kw w s : jsstring) :
  Forall (fun c => isWhiteSpace c = true) w ->
  head_is_word kw = true ->
  forall prev,
    head_is_word prev = false ->
    keyword_from kw prev (w ++ s) = keyword_from kw prev s.
Proof.
  intros F Hkw. induction F as [|x w Hx F IH]; intros prev Hp; [reflexivity|].
  change (keyword_from kw prev ((x :: w) ++ s))
    with ((negb (head_is_word prev) && keyword_here kw (x :: w ++ s))
          || keyword_from kw (x :: prev) (w ++ s)).
  assert (Hh : keyword_here kw (x :: w ++ s) = false).
  { destruct kw as [|c kw]; [discriminate|]. simpl.
    rewrite (white_space_lower _ Hx).
    destruct (N.eqb_spec x c) as [->|]; [|reflexivity].
    simpl in Hkw. rewrite (white_space_not_word _ Hx) in Hkw. discriminate. }
  rewrite Hh, andb_false_r. simpl.
  rewrite IH by (simpl; apply white_space_not_word; exact Hx).
  apply keyword_from_prev. simpl. rewrite Hp.
  apply white_space_not_word. exact Hx.
Qed.

(** A keyword that starts and ends with a word character occurs in a text
    exactly when it occurs in the trimmed text. *)
Lemma occurrence_trim (kw text : jsstring) :
  head_is_word kw = true ->
  head_is_word (rev kw) = true ->
  whole_word_occurrence kw (trim text) = whole_word_occurrence kw text.
Proof.
  intros H1 H2. destruct (trim_split text) as [ws1 [ws2 [E [F1 F2]]]].
  unfold whole_word_occurrence. rewrite E at 2.
  rewrite (keyword_from_ws_prefix kw ws1 _ F1 H1 [] eq_refl).
  rewrite (keyword_from_ws_suffix kw ws2 _ F2 H2). reflexivity.
Qed.

Section PlainLabel.

Variable lower_ext : jsstring -> code_unit -> jsstring -> jsstring.
Variable canon_ext : code_unit -> code_unit.

Local Abbreviation detect := (detectLangFromText lower_ext canon_ext).
Local Abbreviation cmatch := (char_match canon_ext).
Local Abbreviation lower := (toLowerCase lower_ext).
Local Abbreviation rtest := (test canon_ext true).

Lemma stretch_matches_itself (kw : jsstring) :
  Forall2 (fun x c => cmatch true x c = true) kw kw.
Proof.
  induction kw as [|c kw IH]; constructor; [|exact IH].
  unfold char_match. apply N.eqb_refl.
Qed.

Lemma plain_trim (text : jsstring) :
  plain_ascii text ->
  Forall (fun c => is_ascii_alnum c = true \/ is_ascii_space c = true) (trim text).
Proof.
  intros H. apply Forall_forall. intros x Hx. apply in_trim in Hx.
  unfold plain_ascii in H. rewrite Forall_forall in H. auto.
Qed.

Lemma plain_lower (text : jsstring) :
  plain_ascii text -> lower (trim text) = map latin1_lower (trim text).
Proof.
  intros H. apply lower_from_latin1.
  eapply Forall_impl; [|exact (plain_trim text H)].
  intros c Hc. unfold is_ascii_alnum, is_ascii_space in Hc. bool_lia.
Qed.

(** On plain text, a whole-word occurrence of a keyword that starts and ends
    with a word character makes the test of its rule succeed. *)
Lemma plain_occurrence_found (text k0 : jsstring) (ks : list jsstring) (kw : jsstring) :
  plain_ascii text ->
  In kw (k0 :: ks) ->
  head_is_word kw = true ->
  head_is_word (rev kw) = true ->
  whole_word_occurrence kw text = true ->
  rtest (words k0 ks) (lower (trim text)) = true.
Proof.
  intros Hplain Hin H1 H2 Hocc.
  rewrite <- (occurrence_trim kw text H1 H2) in Hocc.
  unfold whole_word_occurrence in Hocc.
  apply keyword_from_sound in Hocc. destruct Hocc as [pre [rest' [E [Hp Hk]]]].
  apply keyword_here_sound in Hk. destruct Hk as [mid [suf [E' [Em Hs]]]].
  rewrite app_nil_r in Hp.
  rewrite (plain_lower text Hplain), E, E', !map_app, Em.
  apply (test_words_complete canon_ext true k0 ks kw _ kw _ Hin
           (stretch_matches_itself kw)).
  - rewrite <- map_rev, head_is_word_lower, Hp.
    rewrite (head_is_word_app kw _ H1). reflexivity.
  - rewrite (head_is_word_app (rev kw) _ H2), head_is_word_lower, Hs. reflexivity.
Qed.

(** On plain text a keyword with an accented letter does not occur. *)
Lemma accented_never_occurs (text kw : jsstring) :
  plain_ascii text ->
  existsb is_accented kw = true ->
  whole_word_occurrence kw text = false.
Proof.
  intros Hplain Hacc.
  destruct (whole_word_occurrence kw text) eqn:Hocc; [exfalso | reflexivity].
  unfold whole_word_occurrence in Hocc.
  apply keyword_from_sound in Hocc. destruct Hocc as [pre [rest' [E [_ Hk]]]].
  apply keyword_here_sound in Hk. destruct Hk as [mid [suf [E' [Em _]]]].
  apply existsb_exists in Hacc. destruct Hacc as [c [Hc Hacc]].
  rewrite <- Em in Hc. apply in_map_iff in Hc. destruct Hc as [d [Hd Hin]].
  assert (Hdt : In d text).
  { rewrite E, E'. apply in_or_app. right. apply in_or_app. left. exact Hin. }
  unfold plain_ascii in Hplain. rewrite Forall_forall in Hplain.
  destruct (plain_unit_folded d (Hplain _ Hdt)) as [Hlt _].
  unfold is_accented in Hacc. subst c. bool_lia.
Qed.

(** On plain text each keyword test of the detector says whether one of its
    keywords occurs in the text as a whole word. *)
Lemma plain_words_equiv (text k0 : jsstring) (ks : list jsstring) :
  plain_ascii text ->
  forallb keyword_shape (k0 :: ks) = true ->
  rtest (words k0 ks) (lower (trim text)) = occurs_any (k0 :: ks) text.
Proof.
  intros Hplain Hshape. apply eq_true_iff_eq. split; intros H.
  - destruct (plain_words_found lower_ext canon_ext text k0 ks Hplain Hshape H)
      as [kw [Hkw Hocc]].
    unfold occurs_any. apply existsb_exists. exists kw. auto.
  - unfold occurs_any in H. apply existsb_exists in H.
    destruct H as [kw [Hkw Hocc]].
    rewrite forallb_forall in Hshape. specialize (Hshape _ Hkw).
    unfold keyword_shape in Hshape. apply orb_true_iff in Hshape.
    destruct Hshape as [Hacc|Hok].
    + rewrite (accented_never_occurs text kw Hplain Hacc) in Hocc. discriminate.
    + apply andb_true_iff in Hok. destruct Hok as [Hok H2].
      apply andb_true_iff in Hok. destruct Hok as [_ H1].
      apply (plain_occurrence_found text k0 ks kw Hplain Hkw H1 H2 Hocc).
Qed.

Lemma plain_detect_label (text : jsstring) :
  plain_ascii text -> detect text = keyword_label text.
Proof.
  intros Hplain.
  assert (Ft : Forall (fun c => c < 128) (trim text)).
  { eapply Forall_impl; [|exact (plain_trim text Hplain)].
    intros c Hc. unfold is_ascii_alnum, is_ascii_space in Hc. bool_lia. }
  unfold detectLangFromText. cbv zeta.
  unfold pt_chars, es_chars, it_chars, fr_chars.
  rewrite !(plain_no_class canon_ext _ _ Ft) by reflexivity.
  unfold pt_words, es_words, it_words, fr_words.
  rewrite !(plain_words_equiv text _ _ Hplain) by reflexivity.
  reflexivity.
Qed.

(** X7. On a text of ASCII letters, digits and white space the detector is
    a first-match over the keyword lists of its four rules: its answer is the
    label of the first rule one of whose keywords occurs in the text as a
    whole word, in any letter case, and English when none occurs. *)
Theorem plain_text_label (text : jsstring) :
  plain_ascii text -> detect text = keyword_label text.
Proof. exact (plain_detect_label text). Qed.

(** X8. A text of ASCII letters, digits and white space is never Spanish:
    every Spanish keyword has an accented letter. *)
Theorem plain_text_never_spanish (text : jsstring) :
  plain_ascii text -> detect text <> Spanish.
Proof.
  intros Hplain. rewrite (plain_detect_label text Hplain). unfold keyword_label.
  assert (E : occurs_any es_keywords text = false).
  { unfold occurs_any. destruct (existsb _ es_keywords) eqn:H; [|reflexivity].
    apply existsb_exists in H. destruct H as [kw [Hkw Hocc]].
    rewrite (accented_never_occurs text kw Hplain) in Hocc; [discriminate|].
    unfold es_keywords in Hkw. simpl in Hkw.
    destruct Hkw as [<-|[<-|[<-|[<-|[]]]]]; reflexivity. }
  rewrite E.
  destruct (occurs_any pt_keywords text); [discriminate|].
  destruct (occurs_any it_keywords text); [discriminate|].
  destruct (occurs_any fr_keywords text); discriminate.
Qed.

End PlainLabel.

(** * Further properties of the handler *)

Section HandlerMore.

Variable lower_ext : jsstring -> code_unit -> jsstring -> jsstring.
Variable canon_ext : code_unit -> code_unit.
Variable env_TOPIC : option jsstring.
Variable env_OPENAI_MODEL : option jsstring.
Variable upstream : create_args -> completion value.
Variable TypeError : jsstring -> value.
Variable js_String : value -> jsstring.
Variable JSON_stringify : value -> value.

Local Abbreviation handler :=
  (ask_handler lower_ext canon_ext env_TOPIC env_OPENAI_MODEL upstream TypeError
     js_String JSON_stringify).
Local Abbreviation ask' :=
  (ask lower_ext canon_ext env_TOPIC env_OPENAI_MODEL upstream TypeError
     js_String JSON_stringify).
Local Abbreviation args_of :=
  (request_args lower_ext canon_ext env_TOPIC env_OPENAI_MODEL).
Local Abbreviation catch := (on_error js_String JSON_stringify).

Local Abbreviation failure := (failure_trace js_String JSON_stringify).

Lemma on_error_trace (err : value) : catch err = (failure err, Normal tt).
Proof.
  unfold on_error, failure_trace, most_specific_detail, service_payload,
    exception_message, or_else.
  destruct (truthy (opt_get (opt_get err (js "response")) (js "data"))) eqn:Hp.
  - destruct (opt_get (opt_get err (js "response")) (js "data")); reflexivity.
  - destruct (truthy (opt_get err (js "message"))) eqn:Hm.
    + destruct (opt_get err (js "message")); reflexivity.
    + reflexivity.
Qed.

Lemma opt_call_trim_normal (site : jsstring) (v a : value) :
  opt_call_trim TypeError site v = Normal a ->
  a = VUndefined \/ exists s, v = VString s /\ a = VString (trim s).
Proof.
  unfold opt_call_trim, call_trim. destruct v; simpl; intros H;
    try discriminate; try (left; congruence).
  right. exists s. split; congruence.
Qed.

(** The five ways in which a request ends. *)
Lemma handler_outcome (req_body : value) :
  (exists e, handler req_body = (failure e, Normal tt)
             /\ is_string (or_else (opt_get req_body (js "message")) (VString []))
                = false)
  \/ (handler req_body =
        ([Send {| status := 400;
                  body := VObject [(js "error", VString (js "Empty message"))] |}],
         Normal tt))
  \/ (exists s e,
        opt_get req_body (js "message") = VString s /\ trim s <> []
        /\ handler req_body = (Call (args_of (trim s)) :: failure e, Normal tt))
  \/ (exists s,
        opt_get req_body (js "message") = VString s /\ trim s <> []
        /\ handler req_body =
             ([Call (args_of (trim s));
               Send {| status := 502;
                       body := VObject
                         [(js "error", VString (js "No answer from model"))] |}],
              Normal tt))
  \/ (exists s a,
        opt_get req_body (js "message") = VString s /\ trim s <> []
        /\ a <> [] /\ trim a = a
        /\ handler req_body =
             ([Call (args_of (trim s));
               Send {| status := 200; body := VObject [(js "answer", VString a)] |}],
              Normal tt)).
Proof.
  destruct (or_else (opt_get req_body (js "message")) (VString [])) as [| | | |s| |] eqn:Hv.
  1-4,6-7: left; eexists; split; [|reflexivity];
    unfold ask_handler; rewrite Hv; unfold call_trim, lift, bind; cbn [try_catch];
    rewrite on_error_trace; reflexivity.
  destruct (trim s) as [|c u] eqn:Ht.
  - right; left. unfold ask_handler. rewrite Hv. unfold call_trim. rewrite Ht.
    reflexivity.
  - assert (Hne : trim s <> []) by congruence.
    assert (Hm : opt_get req_body (js "message") = VString s).
    { unfold or_else in Hv.
      destruct (truthy (opt_get req_body (js "message"))); [exact Hv|].
      injection Hv as <-. discriminate. }
    right; right.
    destruct (upstream (args_of (trim s))) as [r|err] eqn:Hup.
    + rewrite (handler_resolved lower_ext canon_ext env_TOPIC env_OPENAI_MODEL upstream
                 TypeError js_String JSON_stringify req_body s r Hv Hne Hup).
      unfold relay, lift, bind.
      destruct (get_prop TypeError _ r _) as [choices|e].
      * destruct (opt_call_trim TypeError _ _) as [answer|e] eqn:Ha.
        -- apply opt_call_trim_normal in Ha.
           destruct Ha as [->|[s' [_ ->]]].
           ++ right; left. exists s. auto.
           ++ destruct (trim s') as [|c' u'] eqn:Ht'.
              ** right; left. exists s. auto.
              ** right; right. exists s, (c' :: u').
                 repeat split; [exact Hm | exact Hne | discriminate | ].
                 rewrite <- Ht'. apply trim_idempotent.
        -- left. exists s, e. repeat split; [exact Hm | exact Hne|].
           cbn [try_catch]. rewrite on_error_trace. reflexivity.
      * left. exists s, e. repeat split; [exact Hm | exact Hne|].
        cbn [try_catch]. rewrite on_error_trace. reflexivity.
    + left. exists s, err. repeat split; [exact Hm | exact Hne|].
      rewrite (handler_rejected lower_ext canon_ext env_TOPIC env_OPENAI_MODEL upstream
                 TypeError js_String JSON_stringify req_body s err Hv Hne Hup).
      rewrite on_error_trace. reflexivity.
Qed.

(** X9. Every request, whatever its body and whatever the upstream does,
    is answered exactly once, with status 200, 400, 500 or 502, and the
    handler completes without an exception escaping it. *)
Theorem one_response_per_request (req_body : value) :
  snd (handler req_body) = Normal tt
  /\ exists resp,
       responses_of (fst (handler req_body)) = [resp]
       /\ In (status resp) [200; 400; 500; 502].
Proof.
  destruct (handler_outcome req_body)
    as [[e [E _]]|[E|[[s [e [_ [_ E]]]]|[[s [_ [_ E]]]|[s [a [_ [_ [_ [_ E]]]]]]]]]];
    rewrite E; (split; [reflexivity|]); eexists; (split; [reflexivity|]);
    simpl; tauto.
Qed.

(** X10. The handler writes to the console exactly when it answers 500,
    and then it writes one line. *)
Theorem console_only_on_500 (req_body : value) :
  (responses_of (fst (handler req_body)) <> []
   /\ Forall (fun r => status r = 500) (responses_of (fst (handler req_body)))
   /\ List.length (console_of (fst (handler req_body))) = 1%nat)
  \/ (Forall (fun r => status r <> 500) (responses_of (fst (handler req_body)))
      /\ console_of (fst (handler req_body)) = []).
Proof.
  destruct (handler_outcome req_body)
    as [[e [E _]]|[E|[[s [e [_ [_ E]]]]|[[s [_ [_ E]]]|[s [a [_ [_ [_ [_ E]]]]]]]]]];
    rewrite E; simpl.
  - left. repeat split; [discriminate | repeat constructor].
  - right. split; [repeat constructor; simpl; lia | reflexivity].
  - left. repeat split; [discriminate | repeat constructor].
  - right. split; [repeat constructor; simpl; lia | reflexivity].
  - right. split; [repeat constructor; simpl; lia | reflexivity].
Qed.

(** X11. A request makes at most one upstream call, and makes it only when
    its message is a string with a non-empty trimmed form; the call then
    carries the configured model, a limit of 700 tokens, temperature 0.2 and
    three messages: the language hint for the label of the trimmed message,
    the system prompt, and the trimmed message as the user's turn. *)
Theorem at_most_one_call (req_body : value) :
  calls_of (fst (handler req_body)) = []
  \/ exists s,
       opt_get req_body (js "message") = VString s
       /\ trim s <> []
       /\ calls_of (fst (handler req_body)) =
            [{| model := MODEL env_OPENAI_MODEL;
                messages :=
                  [ {| role := js "system";
                       content :=
                         LANG_HINT (detectLangFromText lower_ext canon_ext (trim s)) |};
                    {| role := js "system"; content := SYSTEM_PROMPT env_TOPIC |};
                    {| role := js "user"; content := trim s |} ];
                max_tokens := 700;
                temperature := temperature_0_2 |}].
Proof.
  destruct (handler_outcome req_body)
    as [[e [E _]]|[E|[[s [e [Hm [Hne E]]]]|[[s [Hm [Hne E]]]|[s [a [Hm [Hne [_ [_ E]]]]]]]]]];
    rewrite E.
  - left; reflexivity.
  - left; reflexivity.
  - right. exists s. auto.
  - right. exists s. auto.
  - right. exists s. auto.
Qed.

(** X12. When the first choice of the upstream response carries a string
    content with a non-empty trimmed form, the request is answered with
    status 200 and that trimmed content as the answer. *)
Theorem answer_is_relayed (userText : jsstring) (r : value)
    (fields cfields mfields : list (jsstring * value)) (first : value)
    (rest : list value) (c : jsstring) :
  trim userText <> [] ->
  upstream (args_of (trim userText)) = Normal r ->
  r = VObject fields ->
  lookup (js "choices") fields = VArray (first :: rest) ->
  first = VObject cfields ->
  lookup (js "message") cfields = VObject mfields ->
  lookup (js "content") mfields = VString c ->
  trim c <> [] ->
  ask' userText =
    ([Call (args_of (trim userText));
      Send {| status := 200;
              body := VObject [(js "answer", VString (trim c))] |}],
     Normal tt).
Proof.
  intros Hne Hup -> Hch -> Hmsg Hcontent Hc.
  unfold ask.
  rewrite (handler_resolved lower_ext canon_ext env_TOPIC env_OPENAI_MODEL upstream
             TypeError js_String JSON_stringify _ userText _
             (ask_message userText) Hne Hup).
  unfold relay, get_prop. cbn [nullish get]. rewrite Hch.
  unfold lift, bind.
  change (opt_get (VArray (VObject cfields :: rest)) (js "0")) with (VObject cfields).
  change (opt_get (VObject cfields) (js "message")) with (lookup (js "message") cfields).
  rewrite Hmsg.
  change (opt_get (VObject mfields) (js "content")) with (lookup (js "content") mfields).
  rewrite Hcontent. unfold opt_call_trim, call_trim. cbn [nullish].
  destruct (trim c) as [|x u]; [congruence|]. reflexivity.
Qed.

(** X13. A message that is present but is not a string (a number, true, an
    object, an array) is not rejected as empty: trimming it raises a
    TypeError, which is reported as a failure with status 500, and the
    upstream service is not called. *)
Theorem non_string_message_is_500 (req_body v : value) :
  opt_get req_body (js "message") = v ->
  truthy v = true ->
  is_string v = false ->
  exists site,
    handler req_body = (failure (TypeError site), Normal tt)
    /\ calls_of (fst (handler req_body)) = [].
Proof.
  intros Hv Ht Hs. exists (js "(req.body?.message || ...).trim").
  assert (E : handler req_body
              = (failure (TypeError (js "(req.body?.message || ...).trim")), Normal tt)).
  { unfold ask_handler. rewrite Hv. unfold or_else. rewrite Ht.
    destruct v; try discriminate;
      unfold call_trim, lift, bind; cbn [try_catch];
      rewrite on_error_trace; reflexivity. }
  split; [exact E|]. rewrite E. reflexivity.
Qed.

(** X14. A content that is present but is not a string (an array of parts,
    a number) does not give the 502 answer: trimming it raises a TypeError,
    which is reported as a failure with status 500. *)
Theorem non_string_content_is_500 (userText : jsstring) (r : value)
    (fields cfields mfields : list (jsstring * value)) (first : value)
    (rest : list value) (c : value) :
  trim userText <> [] ->
  upstream (args_of (trim userText)) = Normal r ->
  r = VObject fields ->
  lookup (js "choices") fields = VArray (first :: rest) ->
  first = VObject cfields ->
  lookup (js "message") cfields = VObject mfields ->
  lookup (js "content") mfields = c ->
  nullish c = false ->
  is_string c = false ->
  exists site,
    ask' userText = (Call (args_of (trim userText)) :: failure (TypeError site), Normal tt).
Proof.
  intros Hne Hup -> Hch -> Hmsg Hcontent Hn Hs.
  exists (js "content?.trim"). unfold ask.
  rewrite (handler_resolved lower_ext canon_ext env_TOPIC env_OPENAI_MODEL upstream
             TypeError js_String JSON_stringify _ userText _
             (ask_message userText) Hne Hup).
  unfold relay, get_prop. cbn [nullish get]. rewrite Hch.
  unfold lift, bind.
  change (opt_get (VArray (VObject cfields :: rest)) (js "0")) with (VObject cfields).
  change (opt_get (VObject cfields) (js "message")) with (lookup (js "message") cfields).
  rewrite Hmsg.
  change (opt_get (VObject mfields) (js "content")) with (lookup (js "content") mfields).
  rewrite Hcontent. unfold opt_call_trim, call_trim. rewrite Hn.
  destruct c; try discriminate; cbn [try_catch fst snd app];
    rewrite on_error_trace; reflexivity.
Qed.

(** X15. When the upstream call settles with undefined or null instead of a
    response, reading its choices raises a TypeError, which is reported as a
    failure with status 500. *)
Theorem nullish_response_is_500 (userText : jsstring) (r : value) :
  trim userText <> [] ->
  upstream (args_of (trim userText)) = Normal r ->
  nullish r = true ->
  exists site,
    ask' userText = (Call (args_of (trim userText)) :: failure (TypeError site), Normal tt).
Proof.
  intros Hne Hup Hn. exists (js "chatResponse.choices"). unfold ask.
  rewrite (handler_resolved lower_ext canon_ext env_TOPIC env_OPENAI_MODEL upstream
             TypeError js_String JSON_stringify _ userText _
             (ask_message userText) Hne Hup).
  unfold relay, get_prop. rewrite Hn. unfold lift, bind. cbn [try_catch fst snd app].
  rewrite on_error_trace. reflexivity.
Qed.

(** X16. White space before and after the message changes nothing: the
    request is handled exactly as the request with the bare message. *)
Theorem ask_ignores_padding (w1 userText w2 : jsstring) :
  Forall (fun c => isWhiteSpace c = true) w1 ->
  Forall (fun c => isWhiteSpace c = true) w2 ->
  ask' (w1 ++ userText ++ w2) = ask' userText.
Proof.
  intros F1 F2. unfold ask, ask_handler.
  rewrite !ask_message. unfold call_trim.
  rewrite (trim_padding w1 userText w2 F1 F2). reflexivity.
Qed.

(** X17. A 200 response always carries a non-empty answer without white
    space around it, and it is sent only after an upstream call. *)
Theorem success_answer_is_trimmed (req_body : value) (b : value) :
  responses_of (fst (handler req_body)) = [{| status := 200; body := b |}] ->
  exists a,
    b = VObject [(js "answer", VString a)]
    /\ a <> [] /\ trim a = a
    /\ List.length (calls_of (fst (handler req_body))) = 1%nat.
Proof.
  destruct (handler_outcome req_body)
    as [[e [E _]]|[E|[[s [e [_ [_ E]]]]|[[s [_ [_ E]]]|[s [a [_ [_ [Ha [Ht E]]]]]]]]]];
    rewrite E; simpl; intros H; try discriminate.
  exists a. injection H as <-. auto.
Qed.

End HandlerMore.

(** * Properties of the listen loop *)

Section BootFacts.

Variable listen : N -> listen_result.
Variable TypeError : jsstring -> value.

Local Abbreviation boot := (listenOn listen TypeError).

(** One turn of the loop, as server.js writes it. *)
Lemma listenOn_step (port : N) (tried : nat) :
  boot port tried =
    match listen port with
    | Listening => ([Listen port; ConsoleLog (running_line port)], Serving port)
    | ListenThrows e => ([Listen port], Uncaught e)
    | ListenError err =>
        match get_prop TypeError (js "err.code") err (js "code") with
        | Throw e => ([Listen port], Uncaught e)
        | Normal code =>
            if strict_equals_string code (js "EADDRINUSE") && (tried <? 5)%nat
            then (Listen port :: ConsoleLog (retry_line port (port + 1))
                    :: fst (boot (port + 1) (S tried)),
                  snd (boot (port + 1) (S tried)))
            else ([Listen port;
                   ConsoleErr [VString (js "Server listen error:"); err]],
                  Exited 1)
        end
    end.
Proof. exact (listenOn_equation listen TypeError port tried). Qed.

Lemma attempts_of_app (t1 t2 : list boot_event) :
  attempts_of (t1 ++ t2) = attempts_of t1 ++ attempts_of t2.
Proof.
  induction t1 as [|ev t1 IH]; simpl; [reflexivity|].
  destruct ev; simpl; rewrite IH; reflexivity.
Qed.

Lemma ports_from_succ (port : N) (k : nat) :
  ports_from port (S k) = port :: ports_from (port + 1) k.
Proof.
  unfold ports_from. simpl. rewrite N.add_0_r. f_equal.
  rewrite <- seq_shift, map_map. apply map_ext.
  intros j. rewrite Nat2N.inj_succ. lia.
Qed.

Lemma ports_from_one (port : N) : ports_from port 1 = [port].
Proof. rewrite ports_from_succ. reflexivity. Qed.

Lemma ports_from_last (port : N) (k : nat) :
  ports_from port (S k) = ports_from port k ++ [port + N.of_nat k].
Proof.
  unfold ports_from. rewrite seq_S, map_app. reflexivity.
Qed.

(** Ports in use are skipped one after the other while tries remain: the
    trace up to there holds the binds and the retry lines only. *)
Lemma listenOn_skip (k : nat) :
  forall port tried,
    (tried + k <= 5)%nat ->
    (forall j, (j < k)%nat -> address_in_use (listen (port + N.of_nat j)) = true) ->
    exists pre,
      fst (boot port tried) = pre ++ fst (boot (port + N.of_nat k) (tried + k))
      /\ snd (boot port tried) = snd (boot (port + N.of_nat k) (tried + k))
      /\ attempts_of pre = ports_from port k
      /\ (forall line, ~ In (ConsoleErr line) pre).
Proof.
  induction k as [|k IH]; intros port tried Hk Hbusy.
  - rewrite N.add_0_r, Nat.add_0_r. exists []. repeat split; auto.
  - assert (H0 : address_in_use (listen port) = true).
    { specialize (Hbusy 0%nat ltac:(lia)). rewrite N.add_0_r in Hbusy. exact Hbusy. }
    rewrite (listenOn_step port tried).
    destruct (listen port) as [|err|e]; try discriminate.
    simpl in H0. apply andb_true_iff in H0. destruct H0 as [Hn Hc].
    apply negb_true_iff in Hn. unfold get_prop. rewrite Hn, Hc.
    destruct (Nat.ltb_spec tried 5) as [L|L]; [|lia]. cbn [andb fst snd].
    destruct (IH (port + 1) (S tried)) as [pre [E1 [E2 [E3 E4]]]]; [lia| |].
    + intros j Hj. replace (port + 1 + N.of_nat j) with (port + N.of_nat (S j))
        by (rewrite Nat2N.inj_succ; lia).
      apply Hbusy. lia.
    + replace (port + 1 + N.of_nat k) with (port + N.of_nat (S k)) in *
        by (rewrite Nat2N.inj_succ; lia).
      replace (S tried + k)%nat with (tried + S k)%nat in * by lia.
      exists (Listen port :: ConsoleLog (retry_line port (port + 1)) :: pre).
      rewrite E1, E2. repeat split.
      * simpl. rewrite E3. symmetry. apply ports_from_succ.
      * intros line [H|[H|H]]; [discriminate | discriminate | exact (E4 line H)].
Qed.

(** What the loop does from a given number of tries on. *)
Lemma listenOn_sound (n : nat) :
  forall port tried,
    (5 - tried <= n)%nat ->
    (exists k,
       (k <= S n)%nat /\ (1 <= k)%nat
       /\ attempts_of (fst (boot port tried)) = ports_from port k)
    /\ (forall c, snd (boot port tried) = Exited c -> c = 1)
    /\ (forall p,
          snd (boot port tried) = Serving p ->
          exists k,
            (k <= n)%nat /\ p = port + N.of_nat k /\ listen p = Listening
            /\ forall j, (j < k)%nat ->
                 address_in_use (listen (port + N.of_nat j)) = true).
Proof.
  induction n as [|n IH]; intros port tried Hn; rewrite (listenOn_step port tried).
  - destruct (listen port) as [|err|e] eqn:Hl.
    + split; [exists 1%nat; repeat split; try lia; symmetry; apply ports_from_one|].
      split; [discriminate|]. intros p H. injection H as <-. exists 0%nat.
      rewrite N.add_0_r. repeat split; try lia; try exact Hl; intros j Hj; lia.
    + unfold get_prop. destruct (nullish err).
      * split; [exists 1%nat; repeat split; try lia; symmetry; apply ports_from_one|].
        split; discriminate.
      * destruct (Nat.ltb_spec tried 5) as [L|L]; [lia|]. rewrite andb_false_r.
        split; [exists 1%nat; repeat split; try lia; symmetry; apply ports_from_one|].
        split; [intros c H; injection H as <-; reflexivity | discriminate].
    + split; [exists 1%nat; repeat split; try lia; symmetry; apply ports_from_one|].
      split; discriminate.
  - destruct (listen port) as [|err|e] eqn:Hl.
    + split; [exists 1%nat; repeat split; try lia; symmetry; apply ports_from_one|].
      split; [discriminate|]. intros p H. injection H as <-. exists 0%nat.
      rewrite N.add_0_r. repeat split; try lia; try exact Hl; intros j Hj; lia.
    + unfold get_prop. destruct (nullish err) eqn:Hnull.
      * split; [exists 1%nat; repeat split; try lia; symmetry; apply ports_from_one|].
        split; discriminate.
      * destruct (strict_equals_string (get err (js "code")) (js "EADDRINUSE")) eqn:Hc.
        -- destruct (Nat.ltb_spec tried 5) as [L|L]; cbn [andb fst snd].
           ++ destruct (IH (port + 1) (S tried) ltac:(lia)) as [[k [K1 [K2 A]]] [X Sv]].
              split; [|split].
              ** exists (S k). repeat split; try lia.
                 simpl. rewrite A. symmetry. apply ports_from_succ.
              ** exact X.
              ** intros p H. destruct (Sv p H) as [k' [K' [-> [Hp Hb]]]].
                 exists (S k'). repeat split.
                 --- lia.
                 --- rewrite Nat2N.inj_succ. lia.
                 --- exact Hp.
                 --- intros j Hj. destruct j as [|j].
                     +++ rewrite N.add_0_r, Hl. simpl. rewrite Hnull, Hc. reflexivity.
                     +++ replace (port + N.of_nat (S j))
                           with (port + 1 + N.of_nat j)
                           by (rewrite Nat2N.inj_succ; lia).
                         apply Hb. lia.
           ++ split; [exists 1%nat; repeat split; try lia; symmetry; apply ports_from_one|].
              split; [intros c H; injection H as <-; reflexivity | discriminate].
        -- cbn [andb].
           split; [exists 1%nat; repeat split; try lia; symmetry; apply ports_from_one|].
           split; [intros c H; injection H as <-; reflexivity | discriminate].
    + split; [exists 1%nat; repeat split; try lia; symmetry; apply ports_from_one|].
      split; discriminate.
Qed.

(** X18. When the first [k] ports from the base port are in use, [k] at
    most 5, and the next one can be bound, the server ends up listening on
    that port, after binding exactly the ports up to it, in order. *)
Theorem listen_lands_on_first_free (port : N) (k : nat) :
  (k <= 5)%nat ->
  (forall j, (j < k)%nat -> address_in_use (listen (port + N.of_nat j)) = true) ->
  listen (port + N.of_nat k) = Listening ->
  snd (boot port 0) = Serving (port + N.of_nat k)
  /\ attempts_of (fst (boot port 0)) = ports_from port (S k).
Proof.
  intros Hk Hbusy Hfree.
  destruct (listenOn_skip k port 0 ltac:(lia) Hbusy) as [pre [E1 [E2 [E3 _]]]].
  rewrite E1, E2, attempts_of_app, E3, (listenOn_step (port + N.of_nat k)), Hfree.
  split; [reflexivity|]. rewrite ports_from_last. reflexivity.
Qed.

(** X19. When the base port and the five ports after it are all in use,
    the process exits with status 1 after binding these six ports: it never
    tries a seventh. *)
Theorem listen_gives_up_after_six (port : N) :
  (forall j, (j < 6)%nat -> address_in_use (listen (port + N.of_nat j)) = true) ->
  snd (boot port 0) = Exited 1
  /\ attempts_of (fst (boot port 0)) = ports_from port 6.
Proof.
  intros Hbusy.
  destruct (listenOn_skip 5 port 0 ltac:(lia)) as [pre [E1 [E2 [E3 _]]]].
  { intros j Hj. apply Hbusy. lia. }
  pose proof (Hbusy 5%nat ltac:(lia)) as H5.
  rewrite E1, E2, attempts_of_app, E3, (listenOn_step (port + N.of_nat 5)).
  destruct (listen (port + N.of_nat 5)) as [|err|e]; try discriminate.
  simpl in H5. apply andb_true_iff in H5. destruct H5 as [Hn Hc].
  apply negb_true_iff in Hn. unfold get_prop. rewrite Hn, Hc.
  split; [reflexivity|]. rewrite (ports_from_last port 5). reflexivity.
Qed.

(** X20. A bind error other than address-in-use ends start-up at once,
    also when tries remain: the error is written to the console and the
    process exits with status 1 without binding a further port. *)
Theorem listen_other_error_exits (port : N) (k : nat) (err : value) :
  (k <= 5)%nat ->
  (forall j, (j < k)%nat -> address_in_use (listen (port + N.of_nat j)) = true) ->
  listen (port + N.of_nat k) = ListenError err ->
  nullish err = false ->
  strict_equals_string (get err (js "code")) (js "EADDRINUSE") = false ->
  snd (boot port 0) = Exited 1
  /\ attempts_of (fst (boot port 0)) = ports_from port (S k)
  /\ In (ConsoleErr [VString (js "Server listen error:"); err]) (fst (boot port 0)).
Proof.
  intros Hk Hbusy Herr Hn Hc.
  destruct (listenOn_skip k port 0 ltac:(lia) Hbusy) as [pre [E1 [E2 [E3 _]]]].
  rewrite E1, E2, attempts_of_app, E3, (listenOn_step (port + N.of_nat k)), Herr.
  unfold get_prop. rewrite Hn, Hc. cbn [andb fst snd].
  split; [reflexivity|]. split.
  - rewrite ports_from_last. reflexivity.
  - apply in_or_app. right. right. left. reflexivity.
Qed.

(** X21. When start-up ends with the server listening, the port is the
    first one from the base port that is not in use, and it is at most five
    above the base port. *)
Theorem serving_port_is_first_free (port p : N) :
  snd (boot port 0) = Serving p ->
  exists k,
    (k <= 5)%nat /\ p = port + N.of_nat k /\ listen p = Listening
    /\ forall j, (j < k)%nat -> address_in_use (listen (port + N.of_nat j)) = true.
Proof.
  intros H.
  exact (proj2 (proj2 (listenOn_sound 5 port 0 ltac:(lia))) p H).
Qed.

(** X22. Start-up binds between one and six ports, consecutive from the
    base port, and when it exits the status is 1. *)
Theorem at_most_six_binds (port : N) :
  (exists k,
     (1 <= k <= 6)%nat /\ attempts_of (fst (boot port 0)) = ports_from port k)
  /\ (forall c, snd (boot port 0) = Exited c -> c = 1).
Proof.
  destruct (listenOn_sound 5 port 0 ltac:(lia)) as [[k [K1 [K2 A]]] [X _]].
  split; [|exact X]. exists k. split; [lia | exact A].
Qed.

End BootFacts.

(** * The further properties at work on examples *)

Lemma white_space_check (w : jsstring) :
  forallb isWhiteSpace w = true -> Forall (fun c => isWhiteSpace c = true) w.
Proof.
  intros H. apply Forall_forall. intros c Hc.
  rewrite forallb_forall in H. apply H. exact Hc.
Qed.

Lemma detect_ignores_padding_witness :
  sample_detect (js "  " ++ js "¿Hola?" ++ [9; 10]) = sample_detect (js "¿Hola?").
Proof.
  apply (detect_ignores_padding sample_lower_ext sample_canon_ext
           (js "  ") (js "¿Hola?") [9; 10]);
    apply white_space_check; reflexivity.
Defined.

Lemma blank_is_english_witness : sample_detect [9; 0x20; 0xA0; 10] = English.
Proof.
  apply (blank_is_english sample_lower_ext sample_canon_ext).
  apply white_space_check. reflexivity.
Defined.

(** A capital E with acute accent. *)
Lemma pt_letter_is_portuguese_witness : sample_detect (js "PERCHÉ NO") = Portuguese.
Proof.
  apply (pt_letter_is_portuguese sample_lower_ext sample_canon_ext
           (js "PERCHÉ NO") 0xE9).
  - vm_compute. tauto.
  - right. vm_compute. tauto.
Defined.


Lemma french_letter_is_u_circumflex_witness :
  sample_detect (js "Bien sûr") = French
  /\ (test sample_canon_ext true fr_words
        (toLowerCase sample_lower_ext (trim (js "Bien sûr"))) = true
      \/ In 0xFB (js "Bien sûr") \/ In 0xDB (js "Bien sûr")).
Proof.
  split; [reflexivity|].
  apply (french_letter_is_u_circumflex sample_lower_ext sample_canon_ext
           sample_canon_ext_beyond (js "Bien sûr")).
  reflexivity.
Defined.

Lemma italian_needs_own_letter_or_keyword_witness :
  sample_detect (js "Come on") = Italian
  /\ ((exists c, In c [0xE8; 0xEC; 0xF2; 0xF9; 0xEE; 0xEF; 0xEB]
                 /\ (In c (js "Come on") \/ In (c - 32) (js "Come on")))
      \/ test sample_canon_ext true (words (js "come") [js "articoli"])
           (toLowerCase sample_lower_ext (trim (js "Come on"))) = true).
Proof.
  split; [reflexivity|].
  apply (italian_needs_own_letter_or_keyword sample_lower_ext sample_canon_ext
           sample_canon_ext_beyond sample_lower_ext_latin1 (js "Come on")).
  reflexivity.
Defined.

Lemma plain_text_label_witness :
  plain_ascii (js "When do I use articles")
  /\ keyword_label (js "When do I use articles") = French
  /\ sample_detect (js "When do I use articles") = keyword_label (js "When do I use articles").
Proof.
  split; [apply plain_ascii_check; reflexivity|].
  split; [reflexivity|].
  apply (plain_text_label sample_lower_ext sample_canon_ext).
  apply plain_ascii_check. reflexivity.
Defined.

Lemma plain_text_never_spanish_witness :
  plain_ascii (js "Como estas") /\ sample_detect (js "Como estas") <> Spanish.
Proof.
  split; [apply plain_ascii_check; reflexivity|].
  apply (plain_text_never_spanish sample_lower_ext sample_canon_ext).
  apply plain_ascii_check. reflexivity.
Defined.

(** A response with one choice whose content is padded with white space. *)
Lemma answer_is_relayed_witness :
  sample_ask
    (upstream_answering
       (VObject [(js "choices",
                  VArray [VObject [(js "message",
                                    VObject [(js "content", VString (js " Use the. "))])]])]))
    (js " Hello ")
  = ([Call (sample_args (js "Hello"));
      Send {| status := 200;
              body := VObject [(js "answer", VString (js "Use the."))] |}],
     Normal tt).
Proof.
  apply (answer_is_relayed sample_lower_ext sample_canon_ext None None
           (upstream_answering
              (VObject [(js "choices",
                         VArray [VObject [(js "message",
                                           VObject [(js "content",
                                                     VString (js " Use the. "))])]])]))
           sample_TypeError sample_String sample_stringify
           (js " Hello ") _ _ _ _ _ _ (js " Use the. ")
           ltac:(discriminate) eq_refl eq_refl eq_refl eq_refl eq_refl eq_refl
           ltac:(discriminate)).
Defined.

(** The body [{ message: true }]. *)
Lemma non_string_message_is_500_witness :
  exists site,
    ask_handler sample_lower_ext sample_canon_ext None None (upstream_answering VNull)
      sample_TypeError sample_String sample_stringify
      (VObject [(js "message", VBool true)])
    = (failure_trace sample_String sample_stringify (sample_TypeError site), Normal tt)
    /\ calls_of
         (fst (ask_handler sample_lower_ext sample_canon_ext None None
                 (upstream_answering VNull) sample_TypeError sample_String
                 sample_stringify (VObject [(js "message", VBool true)]))) = [].
Proof.
  apply (non_string_message_is_500 sample_lower_ext sample_canon_ext None None
           (upstream_answering VNull) sample_TypeError sample_String sample_stringify
           (VObject [(js "message", VBool true)]) (VBool true)
           eq_refl eq_refl eq_refl).
Defined.

(** A content given as an array of parts. *)
Lemma non_string_content_is_500_witness :
  exists site,
    sample_ask
      (upstream_answering
         (VObject [(js "choices",
                    VArray [VObject [(js "message",
                                      VObject [(js "content",
                                                VArray [VString (js "Hi")])])]])]))
      (js "Hello")
    = (Call (sample_args (js "Hello"))
         :: failure_trace sample_String sample_stringify (sample_TypeError site),
       Normal tt).
Proof.
  apply (non_string_content_is_500 sample_lower_ext sample_canon_ext None None
           (upstream_answering
              (VObject [(js "choices",
                         VArray [VObject [(js "message",
                                           VObject [(js "content",
                                                     VArray [VString (js "Hi")])])]])]))
           sample_TypeError sample_String sample_stringify
           (js "Hello") _ _ _ _ _ _ (VArray [VString (js "Hi")])
           ltac:(discriminate) eq_refl eq_refl eq_refl eq_refl eq_refl eq_refl
           eq_refl eq_refl).
Defined.

Lemma nullish_response_is_500_witness :
  exists site,
    sample_ask (upstream_answering VNull) (js "Hello")
    = (Call (sample_args (js "Hello"))
         :: failure_trace sample_String sample_stringify (sample_TypeError site),
       Normal tt).
Proof.
  apply (nullish_response_is_500 sample_lower_ext sample_canon_ext None None
           (upstream_answering VNull) sample_TypeError sample_String sample_stringify
           (js "Hello") VNull ltac:(discriminate) eq_refl eq_refl).
Defined.

Lemma ask_ignores_padding_witness :
  sample_ask (upstream_answering VNull) ([10] ++ js "Hello" ++ js "  ")
  = sample_ask (upstream_answering VNull) (js "Hello").
Proof.
  apply (ask_ignores_padding sample_lower_ext sample_canon_ext None None
           (upstream_answering VNull) sample_TypeError sample_String sample_stringify
           [10] (js "Hello") (js "  "));
    apply white_space_check; reflexivity.
Defined.

Lemma success_answer_is_trimmed_witness :
  exists a,
    VObject [(js "answer", VString (js "Use the."))] = VObject [(js "answer", VString a)]
    /\ a <> [] /\ trim a = a
    /\ List.length
         (calls_of
            (fst (ask_handler sample_lower_ext sample_canon_ext None None
                    (upstream_answering
                       (VObject [(js "choices",
                                  VArray [VObject [(js "message",
                                                    VObject [(js "content",
                                                              VString (js " Use the. "))])]])]))
                    sample_TypeError sample_String sample_stringify
                    (VObject [(js "message", VString (js "Hello"))])))) = 1%nat.
Proof.
  apply (success_answer_is_trimmed sample_lower_ext sample_canon_ext None None
           (upstream_answering
              (VObject [(js "choices",
                         VArray [VObject [(js "message",
                                           VObject [(js "content",
                                                     VString (js " Use the. "))])]])]))
           sample_TypeError sample_String sample_stringify
           (VObject [(js "message", VString (js "Hello"))])
           (VObject [(js "answer", VString (js "Use the."))])).
  reflexivity.
Defined.

(** Ports 3000 and 3001 are taken, port 3002 is free. *)
Lemma listen_lands_on_first_free_witness :
  snd (listenOn (listen_free_from 3002) sample_TypeError 3000 0) = Serving 3002
  /\ attempts_of (fst (listenOn (listen_free_from 3002) sample_TypeError 3000 0))
     = [3000; 3001; 3002].
Proof.
  apply (listen_lands_on_first_free (listen_free_from 3002) sample_TypeError 3000 2).
  - lia.
  - intros j Hj. destruct j as [|[|j]]; [reflexivity | reflexivity | lia].
  - reflexivity.
Defined.

Lemma listen_gives_up_after_six_witness :
  snd (listenOn listen_all_taken sample_TypeError 3000 0) = Exited 1
  /\ attempts_of (fst (listenOn listen_all_taken sample_TypeError 3000 0))
     = [3000; 3001; 3002; 3003; 3004; 3005].
Proof.
  apply (listen_gives_up_after_six listen_all_taken sample_TypeError 3000).
  intros j Hj. reflexivity.
Defined.

(** Port 3000 is taken and port 3001 may not be bound. *)
Lemma listen_other_error_exits_witness :
  snd (listenOn (listen_denied_after 3000) sample_TypeError 3000 0) = Exited 1
  /\ attempts_of (fst (listenOn (listen_denied_after 3000) sample_TypeError 3000 0))
     = [3000; 3001]
  /\ In (ConsoleErr [VString (js "Server listen error:"); access_error])
       (fst (listenOn (listen_denied_after 3000) sample_TypeError 3000 0)).
Proof.
  apply (listen_other_error_exits (listen_denied_after 3000) sample_TypeError 3000 1
           access_error).
  - lia.
  - intros j Hj. destruct j as [|j]; [reflexivity | lia].
  - reflexivity.
  - reflexivity.
  - reflexivity.
Defined.

Lemma serving_port_is_first_free_witness :
  exists k,
    (k <= 5)%nat /\ 3002 = 3000 + N.of_nat k
    /\ listen_free_from 3002 3002 = Listening
    /\ forall j, (j < k)%nat ->
         address_in_use (listen_free_from 3002 (3000 + N.of_nat j)) = true.
Proof.
  apply (serving_port_is_first_free (listen_free_from 3002) sample_TypeError 3000 3002).
  reflexivity.
Defined.

(** * What the upstream call says *)

Lemma startsWith_app (n r : jsstring) : startsWith n (n ++ r) = true.
Proof.
  induction n as [|c n IH]; simpl; [reflexivity|].
  rewrite N.eqb_refl. exact IH.
Qed.

Lemma includes_app (n p r : jsstring) : includes n (p ++ n ++ r) = true.
Proof.
  induction p as [|c p IH].
  - simpl app. destruct (n ++ r) eqn:E; simpl; rewrite <- E, startsWith_app; reflexivity.
  - change (startsWith n (c :: p ++ n ++ r) || includes n (p ++ n ++ r) = true).
    rewrite IH. apply orb_true_r.
Qed.

Lemma startsWith_includes (n r : jsstring) : includes n (n ++ r) = true.
Proof.
  destruct (n ++ r) eqn:E; simpl; rewrite <- E, startsWith_app; reflexivity.
Qed.

Lemma includes_prefix (n a x : jsstring) :
  includes n x = true -> includes n (a ++ x) = true.
Proof.
  intros H. induction a as [|c a IH]; [exact H|].
  change (startsWith n (c :: a ++ x) || includes n (a ++ x) = true).
  rewrite IH. apply orb_true_r.
Qed.

Lemma hint_names_language (d : lang) : includes (lang_name d) (LANG_HINT d) = true.
Proof. unfold LANG_HINT. apply includes_app. Qed.

Lemma prompt_names_topic (env_TOPIC : option jsstring) :
  includes (ALLOWED_POINT env_TOPIC) (SYSTEM_PROMPT env_TOPIC) = true.
Proof.
  unfold SYSTEM_PROMPT. do 5 apply includes_prefix.
  exact (startsWith_includes _ _).
Qed.

Lemma request_contents
    (lower_ext : jsstring -> code_unit -> jsstring -> jsstring)
    (canon_ext : code_unit -> code_unit)
    (env_TOPIC env_OPENAI_MODEL : option jsstring) (userText : jsstring) :
  map content (messages (request_args lower_ext canon_ext env_TOPIC env_OPENAI_MODEL
                           userText))
  = [LANG_HINT (detectLangFromText lower_ext canon_ext userText);
     SYSTEM_PROMPT env_TOPIC; userText].
Proof. reflexivity. Qed.

(** X23. Whatever the text and the configured topic, the upstream call
    carries three messages: the first names the language that the detector
    found for the text, the second names the topic of the lesson, the third is
    the text itself; an unset or empty TOPIC gives the default topic. *)
Theorem call_names_language_and_topic
    (lower_ext : jsstring -> code_unit -> jsstring -> jsstring)
    (canon_ext : code_unit -> code_unit)
    (env_TOPIC env_OPENAI_MODEL : option jsstring) (userText : jsstring) :
  exists c1 c2,
    map content (messages (request_args lower_ext canon_ext env_TOPIC env_OPENAI_MODEL
                             userText))
    = [c1; c2; userText]
    /\ includes (lang_name (detectLangFromText lower_ext canon_ext userText)) c1 = true
    /\ includes (ALLOWED_POINT env_TOPIC) c2 = true
    /\ ALLOWED_POINT None = js "articles (a / an / the)"
    /\ ALLOWED_POINT (Some []) = js "articles (a / an / the)".
Proof.
  exists (LANG_HINT (detectLangFromText lower_ext canon_ext userText)),
         (SYSTEM_PROMPT env_TOPIC).
  exact (conj (request_contents lower_ext canon_ext env_TOPIC env_OPENAI_MODEL userText)
           (conj (hint_names_language _)
              (conj (prompt_names_topic env_TOPIC) (conj eq_refl eq_refl)))).
Qed.
